(** * chatgpt-client: prompt window, response budget and conversation store

    A shallow embedding of [client.go] and of the prompt builder
    ([buildPrompt]) of the Go package [chatgptclient], with the properties
    its specification states about them.

    Conventions of the embedding:
    - a Go [int] is a [Z] in the range of a signed 64-bit word; arithmetic
      on it wraps ([wrap64]);
    - a Go [string] is a [string] of bytes; [len] is [String.length];
    - [fmt.Sprintf] with only [%s] verbs is concatenation;
    - a [float64] that was obtained from an [int] is always a finite
      integer-valued double, and is represented by the integer it denotes;
    - pointers to conversations are references into an explicit object
      heap, so that aliasing through the cache is visible. *)

From Stdlib Require Import ZArith Lia String Ascii Bool QArith.
From stdpp Require Import base list strings.

Local Open Scope Z_scope.

(** ** Go integers and the float64 round trip *)

Module GoInt.

Definition min_int : Z := - 2 ^ 63.
Definition max_int : Z := 2 ^ 63 - 1.

Definition in_range (z : Z) : Prop := min_int <= z <= max_int.

(** Two's complement wrap-around of a 64-bit signed integer. *)
Definition wrap64 (z : Z) : Z := (z + 2 ^ 63) mod 2 ^ 64 - 2 ^ 63.

Definition add (a b : Z) : Z := wrap64 (a + b).
Definition sub (a b : Z) : Z := wrap64 (a - b).

(** [len(s)] of a Go string. *)
Definition len (s : string) : Z := Z.of_nat (String.length s).

(** [float64(z)] for an [int] [z]: the nearest double, ties to even.
    Doubles carry a 53-bit significand, so every integer of magnitude at
    most [2^53] is kept; above, the low [e] bits are rounded away. *)
Definition float64_of_int (z : Z) : Z :=
  let a := Z.abs z in
  if a <=? 2 ^ 53 then z
  else
    let e := Z.log2 a - 52 in
    let q := a / 2 ^ e in
    let r := a mod 2 ^ e in
    let half := 2 ^ (e - 1) in
    let q' := if r <? half then q
              else if half <? r then q + 1
              else if Z.even q then q else q + 1 in
    Z.sgn z * (q' * 2 ^ e).

(** [math.Max] and [math.Min] on finite integer-valued doubles (their
    special cases concern NaN, infinities and signed zeros only). *)
Definition math_Max (x y : Z) : Z := Z.max x y.
Definition math_Min (x y : Z) : Z := Z.min x y.

(** [int(f)] for an integer-valued double [f].  Out of range the Go
    specification leaves the result to the implementation; amd64 yields
    the minimal integer. *)
Definition int_of_float64 (f : Z) : Z :=
  if (min_int <=? f) && (f <=? max_int) then f else min_int.

End GoInt.

(** ** Response budget ([client.go], [calculationPromptMaxTokens]) *)

Definition calculationPromptMaxTokens
    (questLength MaxRequestResponseTokens MaxResponseTokens : Z) : Z :=
  let numTokens := questLength in
  let maxTokens :=
    GoInt.math_Max
      (GoInt.float64_of_int MaxResponseTokens)
      (GoInt.math_Min
         (GoInt.float64_of_int (GoInt.sub MaxRequestResponseTokens numTokens))
         (GoInt.float64_of_int MaxResponseTokens)) in
  GoInt.int_of_float64 maxTokens.

(** ** Messages and the prompt builder ([buildPrompt]) *)

(** A turn of a conversation, with the fields the client reads. *)
Record Message := {
  Text : string;
  IsChatGPT : bool;
  User : string;
  Role : string
}.

(** The error values of the package are formatted messages. *)
Definition error : Type := string.

(** The list type of [core-utils/safe], as far as [buildPrompt] uses it: a
    sequence in insertion order, [Reverse] gives the reversed sequence and
    [ForEach] visits the elements in order until the callback reports
    [done].  The callback is a closure over local variables of its caller:
    it is a function on their state. *)
Module SafeList.

Definition t : Type := list Message.

Definition Reverse (l : t) : t := rev l.

Fixpoint ForEach {S : Type} (fn : Message -> S -> S * bool) (l : t) (s : S) : S :=
  match l with
  | [] => s
  | i :: rest =>
      let '(s', done) := fn i s in
      if done then s' else ForEach fn rest s'
  end.

(** The element at which [ForEach] leaves its loop early, if any. *)
Fixpoint stopsAt {S : Type} (fn : Message -> S -> S * bool) (l : t) (s : S)
    : option Message :=
  match l with
  | [] => None
  | i :: rest =>
      let '(s', done) := fn i s in
      if done then Some i else stopsAt fn rest s'
  end.

End SafeList.

Definition LF : string := String "010"%char EmptyString.

Definition contextMessage (context date : string) : string :=
  context +:+ LF +:+ "Current date: " +:+ date.

Definition endMessage : string := "ChatGPT:".

Definition endOfText : string := "<|endoftext|>" +:+ LF +:+ LF.

(** The local variables of [buildPrompt] that its callback reads and
    writes. *)
Record locals := {
  charCountRes : Z;
  coreMessages : string;
  currentMessage : string;
  currentTextLength : Z
}.

(** The text a message contributes, before the separator. *)
Definition render (message : Message) : string :=
  if IsChatGPT message then
    "ChatGPT:" +:+ LF +:+ LF +:+ Text message
  else if negb (String.eqb (User message) "") then
    User message +:+ ":" +:+ LF +:+ LF +:+ Text message
  else
    "User:" +:+ LF +:+ LF +:+ Text message.

(** The callback handed to [ForEach]. *)
Definition visit (maxLength : Z) (message : Message) (v : locals) : locals * bool :=
  let cur := render message in
  let curLen := GoInt.add (GoInt.len cur) (GoInt.len endOfText) in
  if (0 <? maxLength) && (maxLength <=? GoInt.add (charCountRes v) curLen) then
    ({| charCountRes := charCountRes v;
        coreMessages := coreMessages v;
        currentMessage := cur;
        currentTextLength := curLen |}, true)
  else
    ({| charCountRes := GoInt.add (charCountRes v) curLen;
        coreMessages := cur +:+ endOfText +:+ coreMessages v;
        currentMessage := cur;
        currentTextLength := curLen |}, false).

Definition initial (context date : string) : locals :=
  {| charCountRes :=
       GoInt.add (GoInt.len (contextMessage context date)) (GoInt.len endMessage);
     coreMessages := "";
     currentMessage := "";
     currentTextLength := 0 |}.

Definition buildPrompt (context date : string) (messages : SafeList.t) (maxLength : Z)
    : string * option error :=
  let v := SafeList.ForEach (visit maxLength) (SafeList.Reverse messages)
             (initial context date) in
  let message :=
    contextMessage context date +:+ endOfText +:+ coreMessages v +:+ endMessage in
  (message, None).

(** The message at which the newest-first walk of [buildPrompt] stops. *)
Definition trigger (context date : string) (messages : SafeList.t) (maxLength : Z)
    : option Message :=
  SafeList.stopsAt (visit maxLength) (SafeList.Reverse messages)
    (initial context date).

(** A message with its separator, and a run of such blocks. *)
Definition block (message : Message) : string := render message +:+ endOfText.

Definition concat_str (l : list string) : string := fold_right append "" l.

(** Length of a block as a mathematical integer. *)
Definition blockLen (message : Message) : Z :=
  GoInt.len (render message) + GoInt.len endOfText.

(** Sum of the block lengths of a run of messages. *)
Definition total (l : list Message) : Z :=
  fold_right (fun m acc => blockLen m + acc) 0 l.

(** The sizes [buildPrompt] adds up stay within a Go [int]; strings held in
    memory always satisfy this. *)
Definition prompt_fits (context date : string) (messages : list Message) : Prop :=
  GoInt.len (contextMessage context date) + GoInt.len endMessage + total messages
  <= GoInt.max_int.

(** The prompt as the specification words it, with the label of the
    assistant's turns and the label of the trailer as parameters: a header,
    then every included block in chronological order, then the trailer. *)
Module PromptSpec.

Definition render (assistantName : string) (message : Message) : string :=
  if IsChatGPT message then
    assistantName +:+ ":" +:+ LF +:+ LF +:+ Text message
  else if negb (String.eqb (User message) "") then
    User message +:+ ":" +:+ LF +:+ LF +:+ Text message
  else
    "User:" +:+ LF +:+ LF +:+ Text message.

Definition trailer (trailerName : string) : string := trailerName +:+ ":".

Definition prompt (assistantName trailerName context date : string)
    (included : list Message) : string :=
  contextMessage context date +:+ endOfText
  +:+ concat_str (map (fun m => render assistantName m +:+ endOfText) included)
  +:+ trailer trailerName.

End PromptSpec.

(** ** Results of fallible operations *)

(** A Go pair [(value, err)] with exactly one side set. *)
Inductive result (A : Type) : Type :=
| Ok (a : A)
| Err (e : error).

Arguments Ok {A} a.
Arguments Err {A} e.

(** A call either returns such a pair or panics. *)
Inductive outcome (A : Type) : Type :=
| Returns (r : result A)
| Panics (msg : string).

Arguments Returns {A} r.
Arguments Panics {A} msg.

(** ** The completion API ([openai-client]), an opaque collaborator *)

Module OpenAI.

Definition ModelGPT3_5Turbo : string := "gpt-3.5-turbo".
Definition ModelGPT3_5Turbo0301 : string := "gpt-3.5-turbo-0301".

Record CreateChatCompletionMessage := {
  Role : string;
  Content : string
}.

Record CreateChatCompletionRequest := {
  ChatModel : string;
  ChatMessages : list CreateChatCompletionMessage;
  ChatMaxTokens : Z;
  Temperature : Q
}.

Record CreateCompletionRequest := {
  Model : string;
  Prompt : string;
  MaxTokens : Z
}.

Record ChatChoice := { ChoiceMessage : CreateChatCompletionMessage }.
Record CreateChatCompletionResponse := { ChatChoices : list ChatChoice }.

Record Choice := { ChoiceText : string }.
Record CreateCompletionResponse := { Choices : list Choice }.

(** The two operations of the API, as the answers they give. *)
Record Client := {
  CreateChatCompletion :
    CreateChatCompletionRequest -> result CreateChatCompletionResponse;
  CreateCompletion :
    CreateCompletionRequest -> result CreateCompletionResponse
}.

(** A request sent to the API. *)
Inductive call :=
| ChatCall (req : CreateChatCompletionRequest)
| CompletionCall (req : CreateCompletionRequest).

End OpenAI.

(** ** Configuration *)

Module Config.

Record t := {
  APIKey : string;
  APIServer : string;
  MaxResponseTokens : Z;
  MaxConversations : Z;
  ConversationMaxAge : Z;
  ConversationContext : string;
  ConversationLanguage : string;
  ChatGPTName : string;
  Proxy : string
}.

End Config.

Module AskConfig.

Record t := {
  Model : string;
  Prompt : string;
  Messages : list Message;
  MaxRequestResponseTokens : Z
}.

End AskConfig.

(** The fields of a conversation's configuration that [client.go] reads
    and writes. *)
Module ConversationConfig.

Record t := {
  ID : string;
  MaxAge : Z;
  Context : string;
  Language : string;
  ChatGPTName : string
}.

Definition with_ID (v : string) (c : t) : t :=
  {| ID := v; MaxAge := MaxAge c; Context := Context c;
     Language := Language c; ChatGPTName := ChatGPTName c |}.

Definition with_MaxAge (v : Z) (c : t) : t :=
  {| ID := ID c; MaxAge := v; Context := Context c;
     Language := Language c; ChatGPTName := ChatGPTName c |}.

Definition with_Context (v : string) (c : t) : t :=
  {| ID := ID c; MaxAge := MaxAge c; Context := v;
     Language := Language c; ChatGPTName := ChatGPTName c |}.

Definition with_Language (v : string) (c : t) : t :=
  {| ID := ID c; MaxAge := MaxAge c; Context := Context c;
     Language := v; ChatGPTName := ChatGPTName c |}.

Definition with_ChatGPTName (v : string) (c : t) : t :=
  {| ID := ID c; MaxAge := MaxAge c; Context := Context c;
     Language := Language c; ChatGPTName := v |}.

End ConversationConfig.

(** ** Conversations as heap objects *)

(** A [Conversation] value is a pointer; [ref] is its address in the heap
    of conversation objects. *)
Definition ref : Type := nat.

Module Conversation.

(** Modelled from the spec: the conversation type and its methods are
    declared outside [client.go]; the state is the one of the data model
    (identifier, history, model, context, language, assistant name and
    maximal age). *)
Record t := {
  id : string;
  history : list Message;
  model : string;
  context : string;
  language : string;
  assistantName : string;
  maxAge : Z
}.

Definition with_model (v : string) (c : t) : t :=
  {| id := id c; history := history c; model := v; context := context c;
     language := language c; assistantName := assistantName c;
     maxAge := maxAge c |}.

(** Modelled from the spec: the constructor [NewConversation] is missing;
    a new conversation is seeded with the merged configuration and has an
    empty history. *)
Definition fresh (cfg : ConversationConfig.t) : t :=
  {| id := ConversationConfig.ID cfg;
     history := [];
     model := "";
     context := ConversationConfig.Context cfg;
     language := ConversationConfig.Language cfg;
     assistantName := ConversationConfig.ChatGPTName cfg;
     maxAge := ConversationConfig.MaxAge cfg |}.

End Conversation.

(** ** The cache ([lru]) *)

(** A value stored as [interface{}], and the type assertion that reads a
    conversation back. *)
Inductive any :=
| AConversation (r : ref)
| AOther (tag : string).

Definition asConversation (a : any) : option ref :=
  match a with
  | AConversation r => Some r
  | AOther _ => None
  end.

(** The two nested tests of a cache read: present, and a conversation. *)
Definition conversationOf (cache : option any) : option ref :=
  match cache with
  | Some a => asConversation a
  | None => None
  end.

(** Modelled from the spec: the cache library is not part of the
    repository.  It is a bounded cache whose entries expire one by one:
    entries are kept most recently used first, an entry read after its
    time to live has passed is dropped on that read and reported absent,
    and an insertion beyond the capacity evicts the least recently used
    entries.  The clock the library reads is the argument [now]. *)
Module LRU.

Record item := {
  key : string;
  value : any;
  expires : Z
}.

Record t := {
  capacity : nat;
  items : list item
}.

Definition New (capacity : Z) : t :=
  {| capacity := Z.to_nat capacity; items := [] |}.

Definition live (now : Z) (it : item) : bool := now <=? expires it.

Fixpoint find (k : string) (l : list item) : option item :=
  match l with
  | [] => None
  | it :: rest => if decide (key it = k) then Some it else find k rest
  end.

Definition remove (k : string) (l : list item) : list item :=
  filter (fun it => key it <> k) l.

Definition Get (now : Z) (k : string) (c : t) : option any * t :=
  match find k (items c) with
  | None => (None, c)
  | Some it =>
      if live now it then
        (Some (value it),
         {| capacity := capacity c; items := it :: remove k (items c) |})
      else
        (None, {| capacity := capacity c; items := remove k (items c) |})
  end.

Definition Set_ (now : Z) (k : string) (v : any) (maxAge : Z) (c : t) : t :=
  let it := {| key := k; value := v; expires := now + maxAge |} in
  {| capacity := capacity c;
     items := take (capacity c) (it :: remove k (items c)) |}.

Definition Delete (k : string) (c : t) : t :=
  {| capacity := capacity c; items := remove k (items c) |}.

Definition Clear (c : t) : t :=
  {| capacity := capacity c; items := [] |}.

(** What a read at time [now] would find, without touching the cache. *)
Definition Peek (now : Z) (k : string) (c : t) : option any :=
  match find k (items c) with
  | Some it => if live now it then Some (value it) else None
  | None => None
  end.

End LRU.

(** ** The client ([client.go]) *)

Record client := {
  core : OpenAI.Client;
  cfg : Config.t;
  conversationsCache : LRU.t
}.

Definition with_cache (cache : LRU.t) (c : client) : client :=
  {| core := core c; cfg := cfg c; conversationsCache := cache |}.

(** The client together with the conversation objects its cache points
    to. *)
Record world := {
  self : client;
  objects : list Conversation.t
}.

(** The conversation a live entry of the cache points to. *)
Definition liveConversation (now : Z) (k : string) (w : world) : option ref :=
  conversationOf (LRU.Peek now k (conversationsCache (self w))).

Section Client.

(** Constants of the package that are declared outside [client.go]. *)
Variable DefaultMaxResponseTokens : Z.
Variable DefaultMaxConversations : Z.
Variable DefaultConversationMaxAge : Z.

(** The constructor of the API handle, and the trimming function of
    [core-utils/strings]. *)
Variable openai_New : string -> string -> string -> result OpenAI.Client.
Variable TrimSpace : string -> string.

Definition New (cfg0 : Config.t) : result client :=
  let cfg1 :=
    if decide (Config.MaxResponseTokens cfg0 = 0) then
      {| Config.APIKey := Config.APIKey cfg0;
         Config.APIServer := Config.APIServer cfg0;
         Config.MaxResponseTokens := DefaultMaxResponseTokens;
         Config.MaxConversations := Config.MaxConversations cfg0;
         Config.ConversationMaxAge := Config.ConversationMaxAge cfg0;
         Config.ConversationContext := Config.ConversationContext cfg0;
         Config.ConversationLanguage := Config.ConversationLanguage cfg0;
         Config.ChatGPTName := Config.ChatGPTName cfg0;
         Config.Proxy := Config.Proxy cfg0 |}
    else cfg0 in
  let cfg2 :=
    if decide (Config.MaxConversations cfg1 = 0) then
      {| Config.APIKey := Config.APIKey cfg1;
         Config.APIServer := Config.APIServer cfg1;
         Config.MaxResponseTokens := Config.MaxResponseTokens cfg1;
         Config.MaxConversations := DefaultMaxConversations;
         Config.ConversationMaxAge := Config.ConversationMaxAge cfg1;
         Config.ConversationContext := Config.ConversationContext cfg1;
         Config.ConversationLanguage := Config.ConversationLanguage cfg1;
         Config.ChatGPTName := Config.ChatGPTName cfg1;
         Config.Proxy := Config.Proxy cfg1 |}
    else cfg1 in
  let cfg3 :=
    if decide (Config.ChatGPTName cfg2 = "") then
      {| Config.APIKey := Config.APIKey cfg2;
         Config.APIServer := Config.APIServer cfg2;
         Config.MaxResponseTokens := Config.MaxResponseTokens cfg2;
         Config.MaxConversations := Config.MaxConversations cfg2;
         Config.ConversationMaxAge := Config.ConversationMaxAge cfg2;
         Config.ConversationContext := Config.ConversationContext cfg2;
         Config.ConversationLanguage := Config.ConversationLanguage cfg2;
         Config.ChatGPTName := "ChatGPT";
         Config.Proxy := Config.Proxy cfg2 |}
    else cfg2 in
  match openai_New (Config.APIKey cfg3) (Config.APIServer cfg3) (Config.Proxy cfg3) with
  | Err e => Err e
  | Ok api =>
      Ok {| core := api; cfg := cfg3;
            conversationsCache := LRU.New (Config.MaxConversations cfg3) |}
  end.

(** The chat branch of [Ask] walks the messages, adding up their lengths
    and collecting the role-tagged records. *)
Definition chatMessages (messages : list Message)
    : Z * list OpenAI.CreateChatCompletionMessage :=
  fold_left
    (fun acc msg =>
       (GoInt.add (fst acc) (GoInt.len (Text msg)),
        snd acc ++ [ {| OpenAI.Role := Role msg; OpenAI.Content := Text msg |} ]))
    messages (0, []).

(** [Ask], with the requests it sends to the API. *)
Definition Ask (c : client) (acfg : AskConfig.t)
    : outcome string * list OpenAI.call :=
  if decide (AskConfig.Model acfg = OpenAI.ModelGPT3_5Turbo
             \/ AskConfig.Model acfg = OpenAI.ModelGPT3_5Turbo0301) then
    let '(currentMessageLength, messages) := chatMessages (AskConfig.Messages acfg) in
    let maxTokens :=
      calculationPromptMaxTokens currentMessageLength
        (AskConfig.MaxRequestResponseTokens acfg)
        (Config.MaxResponseTokens (cfg c)) in
    let req :=
      {| OpenAI.ChatModel := AskConfig.Model acfg;
         OpenAI.ChatMessages := messages;
         OpenAI.ChatMaxTokens := maxTokens;
         OpenAI.Temperature := (1 # 10)%Q |} in
    match OpenAI.CreateChatCompletion (core c) req with
    | Err e => (Returns (Err e), [OpenAI.ChatCall req])
    | Ok completion =>
        match OpenAI.ChatChoices completion with
        | [] => (Panics "index out of range [0] with length 0", [OpenAI.ChatCall req])
        | choice :: _ =>
            (Returns (Ok (TrimSpace (OpenAI.Content (OpenAI.ChoiceMessage choice)))),
             [OpenAI.ChatCall req])
        end
    end
  else
    let questionX := AskConfig.Prompt acfg in
    let maxTokens :=
      calculationPromptMaxTokens (GoInt.len questionX)
        (AskConfig.MaxRequestResponseTokens acfg)
        (Config.MaxResponseTokens (cfg c)) in
    let req :=
      {| OpenAI.Model := AskConfig.Model acfg;
         OpenAI.Prompt := questionX;
         OpenAI.MaxTokens := maxTokens |} in
    match OpenAI.CreateCompletion (core c) req with
    | Err e => (Returns (Err e), [OpenAI.CompletionCall req])
    | Ok completion =>
        match OpenAI.Choices completion with
        | [] => (Panics "index out of range [0] with length 0", [OpenAI.CompletionCall req])
        | choice :: _ =>
            (Returns (Ok (TrimSpace (OpenAI.ChoiceText choice))),
             [OpenAI.CompletionCall req])
        end
    end.

(** Modelled from the spec: [NewConversation] is declared outside
    [client.go]; it allocates a conversation seeded with the merged
    configuration and does not fail. *)
Definition NewConversation (c : client) (ccfg : ConversationConfig.t)
    (heap : list Conversation.t) : result ref * list Conversation.t :=
  (Ok (length heap), heap ++ [Conversation.fresh ccfg]).

(** Modelled from the spec: [SetModel] is declared outside [client.go]; it
    writes the model field of the conversation it is called on and reports
    no error. *)
Definition SetModel (conversation : ref) (model : string)
    (heap : list Conversation.t) : option error * list Conversation.t :=
  (None, alter (Conversation.with_model model) conversation heap).

(** The defaults [GetOrCreateConversation] writes into the configuration
    it is handed. *)
Definition mergeDefaults (c : client) (id : string) (ccfg : ConversationConfig.t)
    : ConversationConfig.t :=
  let ccfg :=
    if decide (ConversationConfig.ID ccfg = "")
    then ConversationConfig.with_ID id ccfg else ccfg in
  let ccfg :=
    if decide (ConversationConfig.MaxAge ccfg = 0)
    then ConversationConfig.with_MaxAge DefaultConversationMaxAge ccfg else ccfg in
  let ccfg :=
    if decide (ConversationConfig.Context ccfg = ""
               /\ Config.ConversationContext (cfg c) <> "")
    then ConversationConfig.with_Context (Config.ConversationContext (cfg c)) ccfg
    else ccfg in
  let ccfg :=
    if decide (ConversationConfig.Language ccfg = ""
               /\ Config.ConversationLanguage (cfg c) <> "")
    then ConversationConfig.with_Language (Config.ConversationLanguage (cfg c)) ccfg
    else ccfg in
  if decide (ConversationConfig.ChatGPTName ccfg = "")
  then ConversationConfig.with_ChatGPTName (Config.ChatGPTName (cfg c)) ccfg
  else ccfg.

(** [GetOrCreateConversation]: the result, the configuration as the call
    leaves it, and the new state. *)
Definition GetOrCreateConversation (now : Z) (id : string)
    (ccfg0 : ConversationConfig.t) (w : world)
    : result ref * ConversationConfig.t * world :=
  let c := self w in
  let ccfg := mergeDefaults c id ccfg0 in
  let '(cache, cache1) :=
    LRU.Get now (ConversationConfig.ID ccfg) (conversationsCache c) in
  let c1 := with_cache cache1 c in
  match conversationOf cache with
  | Some conversation =>
      (Ok conversation, ccfg, {| self := c1; objects := objects w |})
  | None =>
      match NewConversation c1 ccfg (objects w) with
      | (Err e, heap) => (Err e, ccfg, {| self := c1; objects := heap |})
      | (Ok conversation, heap) =>
          let cache2 :=
            LRU.Set_ now id (AConversation conversation)
              (ConversationConfig.MaxAge ccfg) cache1 in
          (Ok conversation, ccfg,
           {| self := with_cache cache2 c1; objects := heap |})
      end
  end.

Definition ResetConversations (w : world) : option error * world :=
  (None,
   {| self := with_cache (LRU.Clear (conversationsCache (self w))) (self w);
      objects := objects w |}).

Definition ResetConversation (id : string) (w : world) : option error * world :=
  (None,
   {| self := with_cache (LRU.Delete id (conversationsCache (self w))) (self w);
      objects := objects w |}).

Definition GetConversation (now : Z) (id : string) (w : world)
    : result ref * world :=
  let '(cache, cache1) := LRU.Get now id (conversationsCache (self w)) in
  let w1 := {| self := with_cache cache1 (self w); objects := objects w |} in
  match conversationOf cache with
  | Some conversation => (Ok conversation, w1)
  | None => (Err ("conversation(id: " +:+ id +:+ ") not found"), w1)
  end.

Definition ChangeConversationModel (now : Z) (conversationID model : string)
    (w : world) : option error * world :=
  match GetConversation now conversationID w with
  | (Err e, w1) => (Some e, w1)
  | (Ok conversation, w1) =>
      let '(err, heap) := SetModel conversation model (objects w1) in
      (err, {| self := self w1; objects := heap |})
  end.

End Client.

(** ** Well-formed states *)

(** Every key of the cache occurs once, and every entry holds a
    conversation that exists. *)
Definition wf_cache (heapSize : nat) (c : LRU.t) : Prop :=
  NoDup (LRU.key <$> LRU.items c)
  /\ Forall (fun it => exists r, LRU.value it = AConversation r /\ (r < heapSize)%nat)
       (LRU.items c).

Definition wf (w : world) : Prop :=
  wf_cache (length (objects w)) (conversationsCache (self w)).

(** The texts of the choices with which an API answers a request. *)
Definition answerTo (api : OpenAI.Client) (request : OpenAI.call)
    : result (list string) :=
  match request with
  | OpenAI.ChatCall req =>
      match OpenAI.CreateChatCompletion api req with
      | Ok completion =>
          Ok (map (fun ch => OpenAI.Content (OpenAI.ChoiceMessage ch))
                (OpenAI.ChatChoices completion))
      | Err e => Err e
      end
  | OpenAI.CompletionCall req =>
      match OpenAI.CreateCompletion api req with
      | Ok completion => Ok (map OpenAI.ChoiceText (OpenAI.Choices completion))
      | Err e => Err e
      end
  end.

(** ** Sequences of calls on a client *)

(** The calls of the [Client] interface that touch the conversation store,
    each with the time at which it reads the clock. *)
Inductive operation :=
| OpGetOrCreate (now : Z) (id : string) (ccfg : ConversationConfig.t)
| OpResetAll
| OpReset (id : string)
| OpChangeModel (now : Z) (id model : string).

Definition perform (DefaultConversationMaxAge : Z) (op : operation) (w : world)
    : world :=
  match op with
  | OpGetOrCreate now id ccfg =>
      snd (GetOrCreateConversation DefaultConversationMaxAge now id ccfg w)
  | OpResetAll => snd (ResetConversations w)
  | OpReset id => snd (ResetConversation id w)
  | OpChangeModel now id model => snd (ChangeConversationModel now id model w)
  end.

Definition performAll (DefaultConversationMaxAge : Z) (ops : list operation)
    (w : world) : world :=
  fold_left (fun acc op => perform DefaultConversationMaxAge op acc) ops w.

(** The record a message becomes in a chat request. *)
Definition chatRecord (msg : Message) : OpenAI.CreateChatCompletionMessage :=
  {| OpenAI.Role := Role msg; OpenAI.Content := Text msg |}.

(** The error of a lookup that finds nothing. *)
Definition notFound (id : string) : error :=
  "conversation(id: " +:+ id +:+ ") not found".

(** The cache holds no more entries than its capacity. *)
Definition bounded (w : world) : Prop :=
  (length (LRU.items (conversationsCache (self w)))
   <= LRU.capacity (conversationsCache (self w)))%nat.

(** A constructor of the API handle that always succeeds. *)
Definition connects (api : OpenAI.Client)
    : string -> string -> string -> result OpenAI.Client :=
  fun _ _ _ => Ok api.

(** The five defaults of [GetOrCreateConversation], one by one, in the
    order in which the code applies them. *)
Definition defaultID (id : string) (ccfg : ConversationConfig.t)
    : ConversationConfig.t :=
  if decide (ConversationConfig.ID ccfg = "")
  then ConversationConfig.with_ID id ccfg else ccfg.

Definition defaultMaxAge (DefaultConversationMaxAge : Z)
    (ccfg : ConversationConfig.t) : ConversationConfig.t :=
  if decide (ConversationConfig.MaxAge ccfg = 0)
  then ConversationConfig.with_MaxAge DefaultConversationMaxAge ccfg else ccfg.

Definition defaultContext (c : client) (ccfg : ConversationConfig.t)
    : ConversationConfig.t :=
  if decide (ConversationConfig.Context ccfg = ""
             /\ Config.ConversationContext (cfg c) <> "")
  then ConversationConfig.with_Context (Config.ConversationContext (cfg c)) ccfg
  else ccfg.

Definition defaultLanguage (c : client) (ccfg : ConversationConfig.t)
    : ConversationConfig.t :=
  if decide (ConversationConfig.Language ccfg = ""
             /\ Config.ConversationLanguage (cfg c) <> "")
  then ConversationConfig.with_Language (Config.ConversationLanguage (cfg c)) ccfg
  else ccfg.

Definition defaultChatGPTName (c : client) (ccfg : ConversationConfig.t)
    : ConversationConfig.t :=
  if decide (ConversationConfig.ChatGPTName ccfg = "")
  then ConversationConfig.with_ChatGPTName (Config.ChatGPTName (cfg c)) ccfg
  else ccfg.

(** The conversation [conv] exists and the cache holds it under no key
    other than [id]. *)
Definition storedOnlyUnder (conv : ref) (id : string) (w : world) : Prop :=
  (conv < length (objects w))%nat
  /\ Forall (fun it => LRU.value it = AConversation conv -> LRU.key it = id)
       (LRU.items (conversationsCache (self w))).

(** Two sample turns, used by the examples. *)
Definition hi : Message :=
  {| Text := "hi"; IsChatGPT := false; User := ""; Role := "user" |}.

Definition hello : Message :=
  {| Text := "hello"; IsChatGPT := true; User := ""; Role := "assistant" |}.


(** Sample collaborators and states, used by the examples. *)

(** An API that answers every request with the given texts as choices. *)
Definition answering (texts : list string) : OpenAI.Client :=
  {| OpenAI.CreateChatCompletion := fun _ =>
       Ok {| OpenAI.ChatChoices :=
               map (fun s => {| OpenAI.ChoiceMessage :=
                                  {| OpenAI.Role := "assistant";
                                     OpenAI.Content := s |} |}) texts |};
     OpenAI.CreateCompletion := fun _ =>
       Ok {| OpenAI.Choices := map (fun s => {| OpenAI.ChoiceText := s |}) texts |} |}.

(** An API that fails every request with the given error. *)
Definition failing (e : error) : OpenAI.Client :=
  {| OpenAI.CreateChatCompletion := fun _ => Err e;
     OpenAI.CreateCompletion := fun _ => Err e |}.

Definition sampleConfig : Config.t :=
  {| Config.APIKey := "key";
     Config.APIServer := "";
     Config.MaxResponseTokens := 1000;
     Config.MaxConversations := 10;
     Config.ConversationMaxAge := 0;
     Config.ConversationContext := "";
     Config.ConversationLanguage := "";
     Config.ChatGPTName := "ChatGPT";
     Config.Proxy := "" |}.

Definition sampleClient (api : OpenAI.Client) : client :=
  {| core := api; cfg := sampleConfig; conversationsCache := LRU.New 10 |}.

(** A client that has not created any conversation yet. *)
Definition emptyWorld : world :=
  {| self := sampleClient (answering ["hello"]); objects := [] |}.

Definition configA : ConversationConfig.t :=
  {| ConversationConfig.ID := "";
     ConversationConfig.MaxAge := 60;
     ConversationConfig.Context := "A";
     ConversationConfig.Language := "";
     ConversationConfig.ChatGPTName := "" |}.

Definition configB : ConversationConfig.t :=
  {| ConversationConfig.ID := "b";
     ConversationConfig.MaxAge := 60;
     ConversationConfig.Context := "B";
     ConversationConfig.Language := "";
     ConversationConfig.ChatGPTName := "" |}.

Definition promptQuestion : AskConfig.t :=
  {| AskConfig.Model := "text-davinci-003";
     AskConfig.Prompt := "hi";
     AskConfig.Messages := [];
     AskConfig.MaxRequestResponseTokens := 4000 |}.

(** The state after a first, ordinary call for the identifier a. *)
Definition worldA : world :=
  snd (GetOrCreateConversation 3600 0 "a" configA emptyWorld).

(** The state after a first, ordinary call for the identifier b. *)
Definition worldB : world :=
  snd (GetOrCreateConversation 3600 0 "b" configA emptyWorld).

(** * Properties *)

(** ** Strings *)

Section StringFacts.

Lemma append_cons (x : ascii) (a b : string) :
  String x a +:+ b = String x (a +:+ b).
Proof. reflexivity. Qed.

Lemma append_empty_l (a : string) : "" +:+ a = a.
Proof. reflexivity. Qed.

Lemma length_append (a b : string) :
  String.length (a +:+ b) = (String.length a + String.length b)%nat.
Proof.
  induction a as [|c a IH]; [reflexivity|].
  rewrite append_cons. simpl. now rewrite IH.
Qed.

Lemma append_assoc (a b c : string) : (a +:+ b) +:+ c = a +:+ b +:+ c.
Proof.
  induction a as [|x a IH]; [reflexivity|].
  rewrite !append_cons. now rewrite IH.
Qed.

Lemma append_empty_r (a : string) : a +:+ "" = a.
Proof.
  induction a as [|x a IH]; [reflexivity|].
  rewrite append_cons. now rewrite IH.
Qed.

Lemma concat_str_app (l1 l2 : list string) :
  concat_str (l1 ++ l2) = concat_str l1 +:+ concat_str l2.
Proof.
  induction l1 as [|s l1 IH]; [reflexivity|].
  change (concat_str ((s :: l1) ++ l2)) with (s +:+ concat_str (l1 ++ l2)).
  change (concat_str (s :: l1)) with (s +:+ concat_str l1).
  now rewrite IH, append_assoc.
Qed.

Lemma len_append (a b : string) : GoInt.len (a +:+ b) = GoInt.len a + GoInt.len b.
Proof. unfold GoInt.len. rewrite length_append. lia. Qed.

Lemma len_nonneg (a : string) : 0 <= GoInt.len a.
Proof. unfold GoInt.len. lia. Qed.

End StringFacts.

(** ** Arithmetic of Go integers *)

Lemma wrap64_small (z : Z) : GoInt.in_range z -> GoInt.wrap64 z = z.
Proof.
  unfold GoInt.in_range, GoInt.wrap64, GoInt.min_int, GoInt.max_int.
  intros H. rewrite Z.mod_small; lia.
Qed.

Lemma add_small (a b : Z) :
  0 <= a -> 0 <= b -> a + b <= GoInt.max_int -> GoInt.add a b = a + b.
Proof.
  intros Ha Hb Hab. unfold GoInt.add. apply wrap64_small.
  unfold GoInt.in_range, GoInt.min_int, GoInt.max_int in *. lia.
Qed.

Lemma float64_of_int_exact (z : Z) :
  Z.abs z <= 2 ^ 53 -> GoInt.float64_of_int z = z.
Proof.
  intros H. unfold GoInt.float64_of_int.
  destruct (Z.leb_spec (Z.abs z) (2 ^ 53)); [reflexivity | lia].
Qed.

Lemma int_of_float64_exact (f : Z) :
  GoInt.in_range f -> GoInt.int_of_float64 f = f.
Proof.
  unfold GoInt.in_range, GoInt.int_of_float64. intros [H1 H2].
  destruct (Z.leb_spec GoInt.min_int f), (Z.leb_spec f GoInt.max_int);
    simpl; lia.
Qed.

(** Whatever the first argument of the inner minimum, the outer maximum
    returns its own first argument. *)
Lemma max_min_absorb (a x : Z) : GoInt.math_Max a (GoInt.math_Min x a) = a.
Proof. unfold GoInt.math_Max, GoInt.math_Min. lia. Qed.

Lemma calculationPromptMaxTokens_round_trip (n b a : Z) :
  calculationPromptMaxTokens n b a
  = GoInt.int_of_float64 (GoInt.float64_of_int a).
Proof. unfold calculationPromptMaxTokens. now rewrite max_min_absorb. Qed.

Lemma calculationPromptMaxTokens_small (n b a : Z) :
  Z.abs a <= 2 ^ 53 -> calculationPromptMaxTokens n b a = a.
Proof.
  intros H. rewrite calculationPromptMaxTokens_round_trip.
  rewrite float64_of_int_exact by exact H.
  apply int_of_float64_exact.
  unfold GoInt.in_range, GoInt.min_int, GoInt.max_int. lia.
Qed.

(** ** The walk of [buildPrompt] *)

Section Walk.

Variable maxLength : Z.

Let step := visit maxLength.

Lemma total_app (l1 l2 : list Message) : total (l1 ++ l2) = total l1 + total l2.
Proof. induction l1 as [|m l1 IH]; simpl; lia. Qed.

Lemma total_rev (l : list Message) : total (rev l) = total l.
Proof.
  induction l as [|m l IH]; simpl; [reflexivity|].
  rewrite total_app, IH. simpl. lia.
Qed.

Lemma total_nonneg (l : list Message) : 0 <= total l.
Proof.
  induction l as [|m l IH]; simpl; [lia|].
  unfold blockLen. pose proof (len_nonneg (render m)).
  pose proof (len_nonneg endOfText). lia.
Qed.

Lemma blockLen_block (m : Message) : GoInt.len (block m) = blockLen m.
Proof. unfold block, blockLen. apply len_append. Qed.

Lemma len_endOfText : GoInt.len endOfText = 15.
Proof. reflexivity. Qed.

(** The two outcomes of the callback. *)
Lemma visit_cases (m : Message) (v : locals) :
  let n := GoInt.add (GoInt.len (render m)) (GoInt.len endOfText) in
  (0 < maxLength /\ maxLength <= GoInt.add (charCountRes v) n /\
   snd (step m v) = true /\
   charCountRes (fst (step m v)) = charCountRes v /\
   coreMessages (fst (step m v)) = coreMessages v)
  \/
  ((maxLength <= 0 \/ GoInt.add (charCountRes v) n < maxLength) /\
   snd (step m v) = false /\
   charCountRes (fst (step m v)) = GoInt.add (charCountRes v) n /\
   coreMessages (fst (step m v)) = block m +:+ coreMessages v).
Proof.
  intros n. subst step. unfold visit. fold n.
  destruct (Z.ltb_spec 0 maxLength) as [Hpos|Hpos];
    destruct (Z.leb_spec maxLength (GoInt.add (charCountRes v) n)) as [Hge|Hlt];
    simpl.
  - left. repeat split; assumption.
  - right. repeat split; try reflexivity; [right; assumption|].
    unfold block. now rewrite append_assoc.
  - right. repeat split; try reflexivity; [left; assumption|].
    unfold block. now rewrite append_assoc.
  - right. repeat split; try reflexivity; [left; assumption|].
    unfold block. now rewrite append_assoc.
Qed.

Lemma ForEach_cons (m : Message) (l : list Message) (v : locals) :
  SafeList.ForEach step (m :: l) v
  = if snd (step m v) then fst (step m v)
    else SafeList.ForEach step l (fst (step m v)).
Proof. simpl. now destruct (step m v) as [v' []]. Qed.

Lemma stopsAt_cons (m : Message) (l : list Message) (v : locals) :
  SafeList.stopsAt step (m :: l) v
  = if snd (step m v) then Some m
    else SafeList.stopsAt step l (fst (step m v)).
Proof. simpl. now destruct (step m v) as [v' []]. Qed.

(** With no positive bound the walk accepts every message, and leaves
    them in the core block in reverse order of the visit. *)
Lemma walk_unbounded (l : list Message) :
  maxLength <= 0 ->
  forall v, coreMessages (SafeList.ForEach step l v)
            = concat_str (map block (rev l)) +:+ coreMessages v.
Proof.
  intros Hmax. induction l as [|m l IH]; intros v; [reflexivity|].
  rewrite ForEach_cons.
  destruct (visit_cases m v) as [(Hpos & _) | (_ & Hs & _ & Hcore)]; [lia|].
  rewrite Hs, IH, Hcore. simpl rev.
  rewrite map_app, concat_str_app. simpl map.
  change (concat_str [block m]) with (block m +:+ "").
  now rewrite append_empty_r, append_assoc.
Qed.

(** When the walk stops, it has accepted a prefix of the visited
    sequence, whole, and the stop is at the next element. *)
Lemma walk_stops (l : list Message) :
  forall v t,
    SafeList.stopsAt step l v = Some t ->
    exists kept rest,
      l = kept ++ t :: rest /\
      coreMessages (SafeList.ForEach step l v)
      = concat_str (map block (rev kept)) +:+ coreMessages v.
Proof.
  induction l as [|m l IH]; intros v t Hstop; [discriminate|].
  rewrite stopsAt_cons in Hstop. rewrite ForEach_cons.
  destruct (visit_cases m v)
    as [(_ & _ & Hs & _ & Hcore) | (_ & Hs & _ & Hcore)];
    rewrite Hs in *.
  - injection Hstop as <-. exists [], l. split; [reflexivity|].
    now rewrite Hcore.
  - destruct (IH _ _ Hstop) as (kept & rest & -> & Hk).
    exists (m :: kept), rest. split; [reflexivity|].
    rewrite Hk, Hcore. simpl rev.
    rewrite map_app, concat_str_app. simpl map.
    change (concat_str [block m]) with (block m +:+ "").
    now rewrite append_empty_r, append_assoc.
Qed.

(** A positive bound that the counter starts below is never reached. *)
Lemma walk_below (l : list Message) :
  0 < maxLength ->
  forall v, charCountRes v < maxLength ->
            charCountRes (SafeList.ForEach step l v) < maxLength.
Proof.
  intros Hpos. induction l as [|m l IH]; intros v Hv; [exact Hv|].
  rewrite ForEach_cons.
  destruct (visit_cases m v)
    as [(_ & _ & Hs & Hc & _) | (Hlt & Hs & Hc & _)]; rewrite Hs.
  - now rewrite Hc.
  - apply IH. rewrite Hc. lia.
Qed.

(** Without overflow the counter grows by exactly the length of what
    enters the core block. *)
Lemma walk_count (l : list Message) :
  forall v,
    0 <= charCountRes v ->
    charCountRes v + total l <= GoInt.max_int ->
    charCountRes (SafeList.ForEach step l v) + GoInt.len (coreMessages v)
    = charCountRes v + GoInt.len (coreMessages (SafeList.ForEach step l v)).
Proof.
  induction l as [|m l IH]; intros v H0 Hfit; [reflexivity|].
  rewrite ForEach_cons. simpl in Hfit.
  pose proof (total_nonneg l) as Hl.
  pose proof (len_nonneg (render m)) as Hr.
  pose proof (len_nonneg endOfText) as He.
  assert (Hn : GoInt.add (GoInt.len (render m)) (GoInt.len endOfText) = blockLen m).
  { unfold blockLen in *. apply add_small; lia. }
  destruct (visit_cases m v)
    as [(_ & _ & Hs & Hc & Hcore) | (_ & Hs & Hc & Hcore)]; rewrite Hs.
  - now rewrite Hc, Hcore.
  - rewrite Hn in Hc.
    assert (Hadd : GoInt.add (charCountRes v) (blockLen m)
                   = charCountRes v + blockLen m).
    { unfold blockLen in *. apply add_small; lia. }
    rewrite Hadd in Hc.
    specialize (IH (fst (step m v))).
    rewrite Hc, Hcore in IH. rewrite len_append, blockLen_block in IH.
    unfold blockLen in *. lia.
Qed.

End Walk.

(** ** The prompt *)

Lemma initial_count (context date : string) :
  GoInt.len (contextMessage context date) + GoInt.len endMessage <= GoInt.max_int ->
  charCountRes (initial context date)
  = GoInt.len (contextMessage context date) + GoInt.len endMessage.
Proof.
  intros H. unfold initial. simpl.
  apply add_small; [apply len_nonneg | apply len_nonneg | exact H].
Qed.

Lemma rev_split (l : list Message) (a : list Message) (t : Message) (b : list Message) :
  rev l = a ++ t :: b -> l = rev b ++ t :: rev a.
Proof.
  intros H. rewrite <- (rev_involutive l), H, rev_app_distr. simpl.
  now rewrite <- app_assoc.
Qed.

(** C1, as amended: when the header and the trailer alone are shorter than
    a positive [maxLength] and the newest-first walk stops at [trig], the
    history splits into the older messages, [trig] and the kept newest
    ones; the prompt is the header, the kept messages whole and in
    chronological order, and the trailer; and its length is below
    [maxLength] plus the length-with-separator of [trig]. *)
Theorem buildPrompt_truncation_boundary
    (context date : string) (messages : list Message) (maxLength : Z)
    (trig : Message) :
  0 < maxLength ->
  prompt_fits context date messages ->
  GoInt.len (contextMessage context date) + GoInt.len endMessage < maxLength ->
  trigger context date messages maxLength = Some trig ->
  exists older kept,
    messages = older ++ trig :: kept /\
    fst (buildPrompt context date messages maxLength)
    = contextMessage context date +:+ endOfText
      +:+ concat_str (map block kept) +:+ endMessage /\
    GoInt.len (fst (buildPrompt context date messages maxLength))
    < maxLength + blockLen trig.
Proof.
  intros Hpos Hfit Hhead Htrig. unfold trigger, SafeList.Reverse in Htrig.
  destruct (walk_stops maxLength _ _ _ Htrig) as (kept & rest & Hsplit & Hcore).
  exists (rev rest), (rev kept). split; [now apply rev_split|].
  rewrite append_empty_r in Hcore.
  unfold prompt_fits in Hfit. pose proof (total_nonneg messages) as Htot.
  assert (Hinit : charCountRes (initial context date)
                  = GoInt.len (contextMessage context date) + GoInt.len endMessage).
  { apply initial_count. lia. }
  pose proof (walk_below maxLength (rev messages) Hpos (initial context date)) as Hlt.
  rewrite Hinit in Hlt. specialize (Hlt Hhead).
  pose proof (walk_count maxLength (rev messages) (initial context date)) as Hcnt.
  rewrite Hinit, total_rev in Hcnt.
  pose proof (len_nonneg (contextMessage context date)).
  pose proof (len_nonneg endMessage).
  specialize (Hcnt ltac:(lia) ltac:(lia)).
  change (GoInt.len (coreMessages (initial context date))) with 0 in Hcnt.
  unfold buildPrompt, SafeList.Reverse. cbn [fst].
  split; [now rewrite Hcore|].
  rewrite !len_append. rewrite len_endOfText.
  unfold blockLen. rewrite len_endOfText.
  pose proof (len_nonneg (render trig)). lia.
Qed.

Lemma buildPrompt_truncation_boundary_witness :
  exists older kept,
    [hi; hello] = older ++ hi :: kept /\
    fst (buildPrompt "You are helpful" "2024-01-01" [hi; hello] 100)
    = contextMessage "You are helpful" "2024-01-01" +:+ endOfText
      +:+ concat_str (map block kept) +:+ endMessage /\
    GoInt.len (fst (buildPrompt "You are helpful" "2024-01-01" [hi; hello] 100))
    < 100 + blockLen hi.
Proof.
  apply (buildPrompt_truncation_boundary
           "You are helpful" "2024-01-01" [hi; hello] 100 hi).
  - lia.
  - unfold prompt_fits. vm_compute. discriminate.
  - vm_compute. reflexivity.
  - vm_compute. reflexivity.
Defined.

(** C1, as stated, fails: a header longer than [maxLength] is never cut,
    so the prompt can exceed [maxLength] plus the triggering message. *)
Lemma truncation_bound_fails_under_long_header :
  0 < 30 /\
  trigger "You are helpful" "2024-01-01" [hi] 30 = Some hi /\
  ~ (GoInt.len (fst (buildPrompt "You are helpful" "2024-01-01" [hi] 30))
     < 30 + blockLen hi).
Proof.
  split; [lia|]. split; [vm_compute; reflexivity|].
  vm_compute. intros H. discriminate H.
Qed.

(** C2: without a positive bound every message of the history is in the
    prompt, oldest first, between the header and the trailer. *)
Theorem buildPrompt_unbounded
    (context date : string) (messages : list Message) (maxLength : Z) :
  maxLength <= 0 ->
  fst (buildPrompt context date messages maxLength)
  = contextMessage context date +:+ endOfText
    +:+ concat_str (map block messages) +:+ endMessage.
Proof.
  intros Hmax. unfold buildPrompt, SafeList.Reverse. cbn [fst].
  rewrite (walk_unbounded maxLength (rev messages) Hmax).
  now rewrite rev_involutive, append_empty_r.
Qed.

Lemma buildPrompt_unbounded_witness :
  fst (buildPrompt "You are helpful" "2024-01-01" [hi; hello] (-1))
  = contextMessage "You are helpful" "2024-01-01" +:+ endOfText
    +:+ concat_str (map block [hi; hello]) +:+ endMessage.
Proof.
  apply (buildPrompt_unbounded "You are helpful" "2024-01-01" [hi; hello] (-1)).
  lia.
Defined.

(** C3: the example of the specification. *)
Theorem buildPrompt_example :
  buildPrompt "You are helpful" "2024-01-01" [hi; hello] 0
  = ("You are helpful" +:+ LF +:+ "Current date: 2024-01-01<|endoftext|>"
     +:+ LF +:+ LF +:+ "User:" +:+ LF +:+ LF +:+ "hi<|endoftext|>"
     +:+ LF +:+ LF +:+ "ChatGPT:" +:+ LF +:+ LF +:+ "hello<|endoftext|>"
     +:+ LF +:+ LF +:+ "ChatGPT:", None).
Proof. vm_compute. reflexivity. Qed.

(** Whether or not the walk stops, what it accepts is a prefix of the
    visited sequence. *)
Lemma walk_prefix (maxLength : Z) (l : list Message) :
  forall v,
    exists kept rest,
      l = kept ++ rest /\
      coreMessages (SafeList.ForEach (visit maxLength) l v)
      = concat_str (map block (rev kept)) +:+ coreMessages v.
Proof.
  induction l as [|m l IH]; intros v.
  - exists [], []. now split.
  - rewrite ForEach_cons.
    destruct (visit_cases maxLength m v)
      as [(_ & _ & Hs & _ & Hcore) | (_ & Hs & _ & Hcore)]; rewrite Hs.
    + exists [], (m :: l). split; [reflexivity|]. now rewrite Hcore.
    + destruct (IH (fst (visit maxLength m v))) as (kept & rest & -> & Hk).
      exists (m :: kept), rest. split; [reflexivity|].
      rewrite Hk, Hcore. simpl rev.
      rewrite map_app, concat_str_app. simpl map.
      change (concat_str [block m]) with (block m +:+ "").
      now rewrite append_empty_r, append_assoc.
Qed.

Lemma render_fixed_label (m : Message) : render m = PromptSpec.render "ChatGPT" m.
Proof. unfold render, PromptSpec.render. now destruct (IsChatGPT m). Qed.

(** C4, as amended: the assistant's turns and the trailer always carry the
    fixed label ChatGPT; no configured name reaches the prompt. *)
Theorem buildPrompt_labels_are_fixed
    (context date : string) (messages : list Message) (maxLength : Z) :
  exists older kept,
    messages = older ++ kept /\
    fst (buildPrompt context date messages maxLength)
    = PromptSpec.prompt "ChatGPT" "ChatGPT" context date kept.
Proof.
  destruct (walk_prefix maxLength (rev messages) (initial context date))
    as (kept & rest & Hsplit & Hcore).
  exists (rev rest), (rev kept). split.
  - rewrite <- (rev_involutive messages), Hsplit. apply rev_app_distr.
  - unfold buildPrompt, SafeList.Reverse, PromptSpec.prompt. cbn [fst].
    rewrite Hcore, append_empty_r.
    rewrite (map_ext block (fun m => PromptSpec.render "ChatGPT" m +:+ endOfText));
      [reflexivity|].
    intros m. unfold block. now rewrite render_fixed_label.
Qed.

(** C4, as stated, fails: with the assistant name Bot configured, the
    prompt for one assistant turn is neither variant the claim allows. *)
Lemma configured_name_does_not_label_prompt :
  fst (buildPrompt "You are helpful" "2024-01-01" [hello] 0)
  <> PromptSpec.prompt "Bot" "Bot" "You are helpful" "2024-01-01" [hello]
  /\
  fst (buildPrompt "You are helpful" "2024-01-01" [hello] 0)
  <> PromptSpec.prompt "Bot" "ChatGPT" "You are helpful" "2024-01-01" [hello].
Proof. split; vm_compute; discriminate. Qed.

(** ** The response budget *)

(** C5, as amended: for a floor that a double holds exactly the result is
    the formula of the specification (and so is the floor); the three
    sample values hold. *)
Theorem calculationPromptMaxTokens_formula (promptLength maxBudget minBudget : Z) :
  Z.abs minBudget <= 2 ^ 53 ->
  calculationPromptMaxTokens promptLength maxBudget minBudget
  = Z.max minBudget (Z.min (maxBudget - promptLength) minBudget)
  /\ calculationPromptMaxTokens 100 1000 50 = 50
  /\ calculationPromptMaxTokens 100 120 50 = 50
  /\ calculationPromptMaxTokens 10 1000 50 = 50.
Proof.
  intros H. split; [|repeat split; reflexivity].
  rewrite calculationPromptMaxTokens_small by exact H. lia.
Qed.

Lemma calculationPromptMaxTokens_formula_witness :
  calculationPromptMaxTokens 100 120 50 = Z.max 50 (Z.min (120 - 100) 50)
  /\ calculationPromptMaxTokens 100 1000 50 = 50
  /\ calculationPromptMaxTokens 100 120 50 = 50
  /\ calculationPromptMaxTokens 10 1000 50 = 50.
Proof.
  apply (calculationPromptMaxTokens_formula 100 120 50).
  vm_compute. discriminate.
Defined.

(** C5, as stated, fails: above [2^53] the conversion to a double rounds
    the floor, and the result is not the formula's value. *)
Lemma formula_fails_beyond_double_precision :
  calculationPromptMaxTokens 100 1000 9007199254740993
  <> Z.max 9007199254740993 (Z.min (1000 - 100) 9007199254740993).
Proof. vm_compute. discriminate. Qed.

(** C6, as amended: the result never depends on the prompt length or on
    the combined cap, and it is the floor itself whenever a double holds
    the floor exactly. *)
Theorem calculationPromptMaxTokens_is_floor
    (questLength MaxRequestResponseTokens MaxResponseTokens : Z) :
  (forall questLength' MaxRequestResponseTokens',
     calculationPromptMaxTokens questLength' MaxRequestResponseTokens' MaxResponseTokens
     = calculationPromptMaxTokens questLength MaxRequestResponseTokens MaxResponseTokens)
  /\ (Z.abs MaxResponseTokens <= 2 ^ 53 ->
      calculationPromptMaxTokens questLength MaxRequestResponseTokens MaxResponseTokens
      = MaxResponseTokens).
Proof.
  split.
  - intros q' b'. now rewrite !calculationPromptMaxTokens_round_trip.
  - apply calculationPromptMaxTokens_small.
Qed.

Lemma calculationPromptMaxTokens_is_floor_witness :
  (forall questLength' MaxRequestResponseTokens',
     calculationPromptMaxTokens questLength' MaxRequestResponseTokens' 256
     = calculationPromptMaxTokens 4000 4096 256)
  /\ calculationPromptMaxTokens 4000 4096 256 = 256.
Proof.
  destruct (calculationPromptMaxTokens_is_floor 4000 4096 256) as [Hind Hfloor].
  split; [exact Hind|]. apply Hfloor. vm_compute. discriminate.
Defined.

(** C6, as stated, fails: a floor of [2^53 + 1] comes back as [2^53]. *)
Lemma floor_not_returned_beyond_double_precision :
  calculationPromptMaxTokens 0 0 9007199254740993 <> 9007199254740993.
Proof. vm_compute. discriminate. Qed.

(** ** The cache *)

Section CacheFacts.

Implicit Types (k : string) (l : list LRU.item) (it : LRU.item) (c : LRU.t).
Implicit Types (now maxAge : Z) (n m r : nat).

Lemma remove_cons_eq k it l :
  LRU.key it = k -> LRU.remove k (it :: l) = LRU.remove k l.
Proof. intros H. unfold LRU.remove. now rewrite filter_cons_False by tauto. Qed.

Lemma remove_cons_ne k it l :
  LRU.key it <> k -> LRU.remove k (it :: l) = it :: LRU.remove k l.
Proof. intros H. unfold LRU.remove. now rewrite filter_cons_True. Qed.

Lemma find_key k l it : LRU.find k l = Some it -> LRU.key it = k /\ In it l.
Proof.
  induction l as [|x l IH]; simpl; [discriminate|].
  destruct (decide (LRU.key x = k)) as [Hx|Hx].
  - intros [= <-]. split; [exact Hx | now left].
  - intros H. destruct (IH H) as [? ?]. split; [assumption | now right].
Qed.

Lemma find_remove_eq k l : LRU.find k (LRU.remove k l) = None.
Proof.
  induction l as [|x l IH]; [reflexivity|].
  destruct (decide (LRU.key x = k)) as [Hx|Hx].
  - now rewrite remove_cons_eq.
  - rewrite remove_cons_ne by exact Hx. simpl.
    now destruct (decide (LRU.key x = k)).
Qed.

Lemma find_remove_ne k k' l :
  k <> k' -> LRU.find k' (LRU.remove k l) = LRU.find k' l.
Proof.
  intros Hk. induction l as [|x l IH]; [reflexivity|].
  destruct (decide (LRU.key x = k)) as [Hx|Hx].
  - rewrite remove_cons_eq by exact Hx. simpl.
    destruct (decide (LRU.key x = k')); [congruence | exact IH].
  - rewrite remove_cons_ne by exact Hx. simpl.
    destruct (decide (LRU.key x = k')); [reflexivity | exact IH].
Qed.

Lemma find_None_remove k l : LRU.find k l = None -> LRU.remove k l = l.
Proof.
  induction l as [|x l IH]; [reflexivity|]. simpl.
  destruct (decide (LRU.key x = k)) as [Hx|Hx]; [discriminate|].
  intros H. rewrite remove_cons_ne by exact Hx. now rewrite IH.
Qed.

Lemma find_None_keys k l : LRU.find k l = None <-> ~ In k (LRU.key <$> l).
Proof.
  induction l as [|x l IH]; simpl; [tauto|].
  destruct (decide (LRU.key x = k)) as [Hx|Hx].
  - split; [discriminate | intros H; exfalso; apply H; now left].
  - rewrite IH. tauto.
Qed.

Lemma keys_remove k k' l :
  In k' (LRU.key <$> LRU.remove k l) <-> k' <> k /\ In k' (LRU.key <$> l).
Proof.
  induction l as [|x l IH]; simpl; [tauto|].
  destruct (decide (LRU.key x = k)) as [Hx|Hx].
  - rewrite remove_cons_eq by exact Hx. rewrite IH. intuition congruence.
  - rewrite remove_cons_ne by exact Hx. simpl. rewrite IH. intuition congruence.
Qed.

Lemma NoDup_keys_remove k l :
  NoDup (LRU.key <$> l) -> NoDup (LRU.key <$> LRU.remove k l).
Proof.
  induction l as [|x l IH]; [intros; constructor|].
  intros H. change (NoDup (LRU.key x :: (LRU.key <$> l))) in H.
  apply NoDup_cons in H as [Hx Hl].
  destruct (decide (LRU.key x = k)) as [Hk|Hk].
  - rewrite remove_cons_eq by exact Hk. now apply IH.
  - rewrite remove_cons_ne by exact Hk.
    change (NoDup (LRU.key x :: (LRU.key <$> LRU.remove k l))).
    apply NoDup_cons. split; [|now apply IH].
    rewrite list_elem_of_In, keys_remove. rewrite list_elem_of_In in Hx. tauto.
Qed.

(** A hit moves its entry to the front and changes nothing else. *)
Lemma hit_permutes k l it :
  NoDup (LRU.key <$> l) -> LRU.find k l = Some it ->
  Permutation (it :: LRU.remove k l) l.
Proof.
  induction l as [|x l IH]; simpl; [discriminate|].
  intros H. change (NoDup (LRU.key x :: (LRU.key <$> l))) in H.
  apply NoDup_cons in H as [Hx Hl].
  destruct (decide (LRU.key x = k)) as [Hk|Hk].
  - intros [= <-]. rewrite remove_cons_eq by exact Hk.
    rewrite find_None_remove; [reflexivity|].
    apply find_None_keys. rewrite <- list_elem_of_In. now rewrite <- Hk.
  - intros Hf. rewrite remove_cons_ne by exact Hk.
    rewrite Permutation_swap. constructor. now apply IH.
Qed.

Lemma Forall_remove (P : LRU.item -> Prop) k l :
  Forall P l -> Forall P (LRU.remove k l).
Proof.
  rewrite !Forall_forall. intros H x Hx.
  apply list_elem_of_filter in Hx. now apply H.
Qed.

(** Reading does not change what any later read finds, at any key, as
    long as the entry read was live. *)
Lemma Peek_after_hit k c it (t : Z) k' :
  LRU.find k (LRU.items c) = Some it ->
  LRU.Peek t k'
    {| LRU.capacity := LRU.capacity c;
       LRU.items := it :: LRU.remove k (LRU.items c) |}
  = LRU.Peek t k' c.
Proof.
  intros Hf. unfold LRU.Peek. simpl.
  destruct (find_key _ _ _ Hf) as [Hk _].
  destruct (decide (LRU.key it = k')) as [Hk'|Hk'].
  - subst k'. rewrite Hk. now rewrite Hf.
  - rewrite find_remove_ne by congruence. reflexivity.
Qed.

Lemma Get_Peek now k c : fst (LRU.Get now k c) = LRU.Peek now k c.
Proof.
  unfold LRU.Get, LRU.Peek.
  destruct (LRU.find k (LRU.items c)) as [it|]; [|reflexivity].
  now destruct (LRU.live now it).
Qed.

(** After a miss the key is gone for good. *)
Lemma Get_miss_absent now k c :
  LRU.Peek now k c = None ->
  LRU.find k (LRU.items (snd (LRU.Get now k c))) = None.
Proof.
  unfold LRU.Get, LRU.Peek.
  destruct (LRU.find k (LRU.items c)) as [it|] eqn:Hf; [|intros _; exact Hf].
  destruct (LRU.live now it); [discriminate|]. intros _. simpl.
  apply find_remove_eq.
Qed.

Lemma Get_other now k k' c :
  k <> k' ->
  LRU.find k' (LRU.items (snd (LRU.Get now k c))) = LRU.find k' (LRU.items c).
Proof.
  intros Hk. unfold LRU.Get.
  destruct (LRU.find k (LRU.items c)) as [it|] eqn:Hf; [|reflexivity].
  destruct (find_key _ _ _ Hf) as [Hit _].
  destruct (LRU.live now it); simpl.
  - destruct (decide (LRU.key it = k')); [congruence|].
    now apply find_remove_ne.
  - now apply find_remove_ne.
Qed.

Lemma Get_capacity now k c :
  LRU.capacity (snd (LRU.Get now k c)) = LRU.capacity c.
Proof.
  unfold LRU.Get. destruct (LRU.find k (LRU.items c)) as [it|]; [|reflexivity].
  now destruct (LRU.live now it).
Qed.

Lemma Get_wf n now k c : wf_cache n c -> wf_cache n (snd (LRU.Get now k c)).
Proof.
  intros [Hnd Hall]. unfold LRU.Get.
  destruct (LRU.find k (LRU.items c)) as [it|] eqn:Hf; [|now split].
  destruct (find_key _ _ _ Hf) as [Hk Hin].
  assert (Hrm : wf_cache n {| LRU.capacity := LRU.capacity c;
                              LRU.items := LRU.remove k (LRU.items c) |}).
  { split; [now apply NoDup_keys_remove | now apply Forall_remove]. }
  destruct (LRU.live now it); [|exact Hrm].
  destruct Hrm as [Hnd' Hall']. split; simpl in *.
  - change (NoDup (LRU.key it :: (LRU.key <$> LRU.remove k (LRU.items c)))).
    apply NoDup_cons. split; [|exact Hnd'].
    rewrite list_elem_of_In, keys_remove. tauto.
  - constructor; [|exact Hall'].
    rewrite Forall_forall in Hall. apply Hall. now apply list_elem_of_In.
Qed.

Lemma Set_wf n now k r maxAge c :
  (r < n)%nat -> wf_cache n c ->
  wf_cache n (LRU.Set_ now k (AConversation r) maxAge c).
Proof.
  intros Hr [Hnd Hall]. unfold LRU.Set_. split; simpl.
  - rewrite fmap_take. eapply sublist_NoDup; [|apply sublist_take].
    change (NoDup (k :: (LRU.key <$> LRU.remove k (LRU.items c)))).
    apply NoDup_cons. split; [|now apply NoDup_keys_remove].
    rewrite list_elem_of_In, keys_remove. tauto.
  - apply Forall_take. constructor; [|now apply Forall_remove].
    exists r. now split.
Qed.

Lemma wf_cache_grow n m c : (n <= m)%nat -> wf_cache n c -> wf_cache m c.
Proof.
  intros Hnm [Hnd Hall]. split; [exact Hnd|].
  eapply Forall_impl; [exact Hall|]. intros it (r & Hv & Hr).
  exists r. split; [exact Hv | lia].
Qed.

End CacheFacts.

(** ** The conversation store *)

Section StoreFacts.

Variable DefaultConversationMaxAge : Z.

Let getOrCreate := GetOrCreateConversation DefaultConversationMaxAge.
Let merged := mergeDefaults DefaultConversationMaxAge.

Implicit Types (w : world) (c : client) (ccfg : ConversationConfig.t).
Implicit Types (now t : Z) (id k model : string) (conv : ref).

Lemma merged_ID c id ccfg :
  ConversationConfig.ID (merged c id ccfg)
  = if decide (ConversationConfig.ID ccfg = "") then id
    else ConversationConfig.ID ccfg.
Proof.
  subst merged. unfold mergeDefaults.
  repeat match goal with
         | |- context [decide ?P] => destruct (decide P)
         end; reflexivity.
Qed.

Lemma conversationOf_Get now k (cache : LRU.t) :
  conversationOf (fst (LRU.Get now k cache)) = conversationOf (LRU.Peek now k cache).
Proof. now rewrite Get_Peek. Qed.

(** A live conversation under the looked-up key is returned as it is. *)
Lemma getOrCreate_hit now id ccfg w conv :
  liveConversation now (ConversationConfig.ID (merged (self w) id ccfg)) w = Some conv ->
  getOrCreate now id ccfg w
  = (Ok conv, merged (self w) id ccfg,
     {| self := with_cache
                  (snd (LRU.Get now (ConversationConfig.ID (merged (self w) id ccfg))
                          (conversationsCache (self w))))
                  (self w);
        objects := objects w |}).
Proof.
  intros Hlive. subst getOrCreate merged. unfold GetOrCreateConversation.
  unfold liveConversation in Hlive. rewrite <- conversationOf_Get in Hlive.
  destruct (LRU.Get _ _ _) as [cache cache1]. simpl in *. now rewrite Hlive.
Qed.

(** Without one, a new conversation is allocated and stored under [id]. *)
Lemma getOrCreate_miss now id ccfg w :
  liveConversation now (ConversationConfig.ID (merged (self w) id ccfg)) w = None ->
  getOrCreate now id ccfg w
  = (Ok (length (objects w)), merged (self w) id ccfg,
     {| self := with_cache
                  (LRU.Set_ now id (AConversation (length (objects w)))
                     (ConversationConfig.MaxAge (merged (self w) id ccfg))
                     (snd (LRU.Get now (ConversationConfig.ID (merged (self w) id ccfg))
                             (conversationsCache (self w)))))
                  (self w);
        objects := objects w ++ [Conversation.fresh (merged (self w) id ccfg)] |}).
Proof.
  intros Hlive. subst getOrCreate merged. unfold GetOrCreateConversation.
  unfold liveConversation in Hlive. rewrite <- conversationOf_Get in Hlive.
  destruct (LRU.Get _ _ _) as [cache cache1]. simpl in *. now rewrite Hlive.
Qed.

Lemma wf_live now k w a :
  wf w -> LRU.Peek now k (conversationsCache (self w)) = Some a ->
  exists conv, a = AConversation conv /\ (conv < length (objects w))%nat.
Proof.
  intros [_ Hall] Hpeek. unfold LRU.Peek in Hpeek.
  destruct (LRU.find k _) as [it|] eqn:Hf; [|discriminate].
  destruct (LRU.live now it); [|discriminate]. injection Hpeek as <-.
  destruct (find_key _ _ _ Hf) as [_ Hin].
  rewrite Forall_forall in Hall. apply Hall. now apply list_elem_of_In.
Qed.

Lemma wf_live_None now k w :
  wf w -> liveConversation now k w = None ->
  LRU.Peek now k (conversationsCache (self w)) = None.
Proof.
  intros Hwf Hnone. unfold liveConversation in Hnone.
  destruct (LRU.Peek now k _) as [a|] eqn:Hp; [|reflexivity].
  destruct (wf_live _ _ _ _ Hwf Hp) as (conv & -> & _). discriminate.
Qed.

Lemma wf_live_valid now k w conv :
  wf w -> liveConversation now k w = Some conv -> (conv < length (objects w))%nat.
Proof.
  intros Hwf Hlive. unfold liveConversation in Hlive.
  destruct (LRU.Peek now k _) as [a|] eqn:Hp; [|discriminate].
  destruct (wf_live _ _ _ _ Hwf Hp) as (conv' & -> & Hlt).
  simpl in Hlive. now injection Hlive as <-.
Qed.

Lemma find_take_None k (n : nat) (l : list LRU.item) :
  LRU.find k l = None -> LRU.find k (take n l) = None.
Proof.
  revert n. induction l as [|x l IH]; intros [|n]; simpl; try reflexivity.
  destruct (decide (LRU.key x = k)); [discriminate | apply IH].
Qed.

(** Well-formedness is an invariant of the store operations. *)
Lemma getOrCreate_wf now id ccfg w :
  wf w -> wf (snd (getOrCreate now id ccfg w)).
Proof.
  intros Hwf.
  destruct (liveConversation now
              (ConversationConfig.ID (merged (self w) id ccfg)) w) as [conv|] eqn:Hl.
  - rewrite (getOrCreate_hit _ _ _ _ _ Hl). unfold wf. simpl. now apply Get_wf.
  - rewrite (getOrCreate_miss _ _ _ _ Hl). unfold wf. simpl.
    rewrite length_app. simpl. apply Set_wf; [lia|].
    apply wf_cache_grow with (n := length (objects w)); [lia|].
    now apply Get_wf.
Qed.

Lemma ResetConversation_wf id w : wf w -> wf (snd (ResetConversation id w)).
Proof.
  intros [Hnd Hall]. split; simpl.
  - now apply NoDup_keys_remove.
  - now apply Forall_remove.
Qed.

Lemma ResetConversations_wf w : wf (snd (ResetConversations w)).
Proof. split; simpl; constructor. Qed.

End StoreFacts.

(** ** Changing the model of a conversation *)

Lemma GetConversation_hit (now : Z) (id : string) (w : world) (conv : ref) :
  liveConversation now id w = Some conv ->
  GetConversation now id w
  = (Ok conv,
     {| self := with_cache (snd (LRU.Get now id (conversationsCache (self w)))) (self w);
        objects := objects w |}).
Proof.
  intros Hlive. unfold GetConversation.
  unfold liveConversation in Hlive. rewrite <- conversationOf_Get in Hlive.
  destruct (LRU.Get _ _ _) as [cache cache1]. simpl in *. now rewrite Hlive.
Qed.

Lemma GetConversation_miss (now : Z) (id : string) (w : world) :
  liveConversation now id w = None ->
  GetConversation now id w
  = (Err ("conversation(id: " +:+ id +:+ ") not found"),
     {| self := with_cache (snd (LRU.Get now id (conversationsCache (self w)))) (self w);
        objects := objects w |}).
Proof.
  intros Hlive. unfold GetConversation.
  unfold liveConversation in Hlive. rewrite <- conversationOf_Get in Hlive.
  destruct (LRU.Get _ _ _) as [cache cache1]. simpl in *. now rewrite Hlive.
Qed.

(** What a hit leaves behind in the cache. *)
Lemma Get_hit_items (now : Z) (k : string) (c : LRU.t) (a : any) :
  LRU.Peek now k c = Some a ->
  exists it, LRU.find k (LRU.items c) = Some it /\
             snd (LRU.Get now k c)
             = {| LRU.capacity := LRU.capacity c;
                  LRU.items := it :: LRU.remove k (LRU.items c) |}.
Proof.
  unfold LRU.Peek, LRU.Get.
  destruct (LRU.find k (LRU.items c)) as [it|]; [|discriminate].
  destruct (LRU.live now it); [|discriminate].
  intros _. now exists it.
Qed.

(** C8: [ChangeConversationModel] reports the not-found error exactly when
    the identifier has no live conversation; on a live one it returns no
    error and, in that very object, the model field then holds the given
    model while every other field keeps its value; every other object,
    every cache entry and the configuration stay as they were. *)
Theorem ChangeConversationModel_spec
    (now : Z) (id model : string) (w : world) :
  wf w ->
  let r := ChangeConversationModel now id model w in
  (fst r <> None <-> liveConversation now id w = None)
  /\ (liveConversation now id w = None ->
      fst r = Some ("conversation(id: " +:+ id +:+ ") not found"))
  /\ (forall conv,
        liveConversation now id w = Some conv ->
        fst r = None
        /\ (exists old new,
              objects w !! conv = Some old
              /\ objects (snd r) !! conv = Some new
              /\ Conversation.model new = model
              /\ Conversation.id new = Conversation.id old
              /\ Conversation.history new = Conversation.history old
              /\ Conversation.context new = Conversation.context old
              /\ Conversation.language new = Conversation.language old
              /\ Conversation.assistantName new = Conversation.assistantName old
              /\ Conversation.maxAge new = Conversation.maxAge old)
        /\ (forall other, other <> conv -> objects (snd r) !! other = objects w !! other)
        /\ length (objects (snd r)) = length (objects w)
        /\ (forall t k, liveConversation t k (snd r) = liveConversation t k w)
        /\ Permutation (LRU.items (conversationsCache (self (snd r))))
             (LRU.items (conversationsCache (self w)))
        /\ LRU.capacity (conversationsCache (self (snd r)))
           = LRU.capacity (conversationsCache (self w))
        /\ cfg (self (snd r)) = cfg (self w)).
Proof.
  intros Hwf r.
  assert (Hhit : forall conv,
             liveConversation now id w = Some conv ->
             r = (None,
                  {| self := with_cache
                               (snd (LRU.Get now id (conversationsCache (self w))))
                               (self w);
                     objects := alter (Conversation.with_model model) conv (objects w) |})).
  { intros conv Hl. subst r. unfold ChangeConversationModel.
    now rewrite (GetConversation_hit _ _ _ _ Hl). }
  assert (Hmiss : liveConversation now id w = None ->
                  fst r = Some ("conversation(id: " +:+ id +:+ ") not found")).
  { intros Hl. subst r. unfold ChangeConversationModel.
    now rewrite (GetConversation_miss _ _ _ Hl). }
  split; [|split; [exact Hmiss|]].
  - destruct (liveConversation now id w) as [conv|] eqn:Hl.
    + rewrite (Hhit conv eq_refl). simpl. split; [congruence | discriminate].
    + rewrite (Hmiss eq_refl). split; [reflexivity | discriminate].
  - intros conv Hl. rewrite (Hhit conv Hl). simpl.
    pose proof (wf_live_valid _ _ _ _ Hwf Hl) as Hvalid.
    assert (Hpeek : exists a, LRU.Peek now id (conversationsCache (self w)) = Some a).
    { unfold liveConversation in Hl.
      destruct (LRU.Peek now id _) as [a|]; [now exists a | discriminate]. }
    destruct Hpeek as [a Hpeek].
    destruct (Get_hit_items _ _ _ _ Hpeek) as (it & Hfind & ->).
    split; [reflexivity|]. split; [|split; [|split; [|split; [|split; [|split]]]]].
    + destruct (lookup_lt_is_Some_2 _ _ Hvalid) as [old Hold].
      exists old, (Conversation.with_model model old). split; [exact Hold|].
      split; [now rewrite list_lookup_alter_eq, Hold|].
      repeat split.
    + intros other Hne. now apply list_lookup_alter_ne.
    + apply length_alter.
    + intros t k. unfold liveConversation. simpl.
      now rewrite (Peek_after_hit _ _ _ _ _ Hfind).
    + simpl. apply hit_permutes; [apply Hwf | exact Hfind].
    + reflexivity.
    + reflexivity.
Qed.

Lemma emptyWorld_wf : wf emptyWorld.
Proof. split; simpl; constructor. Qed.

Lemma worldA_wf : wf worldA.
Proof. apply getOrCreate_wf, emptyWorld_wf. Qed.

Lemma worldB_wf : wf worldB.
Proof. apply getOrCreate_wf, emptyWorld_wf. Qed.

Lemma ChangeConversationModel_spec_witness :
  wf worldA
  /\ liveConversation 1 "a" worldA = Some 0%nat
  /\ fst (ChangeConversationModel 1 "a" "gpt-4" worldA) = None
  /\ (exists old new,
        objects worldA !! 0%nat = Some old
        /\ objects (snd (ChangeConversationModel 1 "a" "gpt-4" worldA)) !! 0%nat
           = Some new
        /\ Conversation.model new = "gpt-4"
        /\ Conversation.history new = Conversation.history old)
  /\ (forall t k,
        liveConversation t k (snd (ChangeConversationModel 1 "a" "gpt-4" worldA))
        = liveConversation t k worldA).
Proof.
  split; [exact worldA_wf|]. split; [vm_compute; reflexivity|].
  destruct (ChangeConversationModel_spec 1 "a" "gpt-4" worldA worldA_wf)
    as (_ & _ & Hlive).
  destruct (Hlive 0%nat ltac:(vm_compute; reflexivity))
    as (Herr & Hwrite & _ & _ & Hsame & _).
  split; [exact Herr|]. split; [|exact Hsame].
  destruct Hwrite as (old & new & Hold & Hnew & Hmodel & _ & Hhist & _).
  exists old, new. repeat split; assumption.
Defined.

(** ** Creating and finding conversations *)

(** A read keeps only entries that were there. *)
Lemma Get_Forall (P : LRU.item -> Prop) (now : Z) (k : string) (c : LRU.t) :
  Forall P (LRU.items c) -> Forall P (LRU.items (snd (LRU.Get now k c))).
Proof.
  intros Hall. unfold LRU.Get.
  destruct (LRU.find k (LRU.items c)) as [it|] eqn:Hf; [|exact Hall].
  destruct (find_key _ _ _ Hf) as [_ Hin].
  destruct (LRU.live now it); simpl.
  - constructor; [|now apply Forall_remove].
    rewrite Forall_forall in Hall. apply Hall. now apply list_elem_of_In.
  - now apply Forall_remove.
Qed.

(** An insertion stores a conversation that did not exist before, so it
    never puts an existing conversation under another key. *)
Lemma storedOnlyUnder_perform
    (DefaultConversationMaxAge : Z) (op : operation) (conv : ref) (id : string)
    (w : world) :
  storedOnlyUnder conv id w ->
  storedOnlyUnder conv id (perform DefaultConversationMaxAge op w).
Proof.
  intros [Hlt Hall]. destruct op as [now id' ccfg| |id'|now id' model]; simpl perform.
  - destruct (liveConversation now
                (ConversationConfig.ID
                   (mergeDefaults DefaultConversationMaxAge (self w) id' ccfg)) w)
      as [other|] eqn:Hl.
    + rewrite (getOrCreate_hit _ _ _ _ _ _ Hl). split; simpl; [exact Hlt|].
      now apply Get_Forall.
    + rewrite (getOrCreate_miss _ _ _ _ _ Hl). split; simpl.
      * rewrite length_app. simpl. lia.
      * apply Forall_take. constructor.
        -- simpl. intros [= Heq]. lia.
        -- now apply Forall_remove, Get_Forall.
  - split; simpl; [exact Hlt | constructor].
  - split; simpl; [exact Hlt | now apply Forall_remove].
  - unfold ChangeConversationModel.
    destruct (liveConversation now id' w) as [other|] eqn:Hl.
    + rewrite (GetConversation_hit _ _ _ _ Hl). split; simpl.
      * now rewrite length_alter.
      * now apply Get_Forall.
    + rewrite (GetConversation_miss _ _ _ Hl). split; simpl; [exact Hlt|].
      now apply Get_Forall.
Qed.

Lemma storedOnlyUnder_performAll
    (DefaultConversationMaxAge : Z) (ops : list operation) (conv : ref)
    (id : string) :
  forall w,
    storedOnlyUnder conv id w ->
    storedOnlyUnder conv id (performAll DefaultConversationMaxAge ops w).
Proof.
  unfold performAll. induction ops as [|op ops IH]; intros w Hw; simpl.
  - exact Hw.
  - apply IH. now apply storedOnlyUnder_perform.
Qed.

Lemma storedOnlyUnder_lookup (conv : ref) (id k : string) (t : Z) (w : world) :
  storedOnlyUnder conv id w -> k <> id -> liveConversation t k w <> Some conv.
Proof.
  intros [_ Hall] Hk Hlive. unfold liveConversation, LRU.Peek in Hlive.
  destruct (LRU.find k _) as [it|] eqn:Hf; [|discriminate].
  destruct (find_key _ _ _ Hf) as [Hkey Hin].
  destruct (LRU.live t it); [|discriminate]. simpl in Hlive.
  rewrite Forall_forall in Hall.
  apply Hk. rewrite <- Hkey. apply Hall; [now apply list_elem_of_In|].
  destruct (LRU.value it) as [r|tag]; simpl in Hlive; congruence.
Qed.

(** C10, as amended: with a non-empty [cfg.ID] different from [id] the
    lookup reads the key [cfg.ID] and the insertion writes the key [id].
    A live conversation under [cfg.ID] is returned, nothing is created
    and the cache holds the same entries, answering every lookup as
    before.  Without one a new conversation is created and stored under
    [id], the key [cfg.ID] stays absent, every later call with the same
    [id] and [cfg.ID] creates yet another conversation, and whatever
    calls follow, a lookup under [cfg.ID] never finds the conversation
    this call created. *)
Theorem GetOrCreateConversation_key_mismatch
    (DefaultConversationMaxAge now : Z) (id : string)
    (ccfg : ConversationConfig.t) (w : world) :
  wf w ->
  (0 < LRU.capacity (conversationsCache (self w)))%nat ->
  ConversationConfig.ID ccfg <> "" ->
  ConversationConfig.ID ccfg <> id ->
  let r := GetOrCreateConversation DefaultConversationMaxAge now id ccfg w in
  let res := fst (fst r) in
  let ccfg' := snd (fst r) in
  let w' := snd r in
  ConversationConfig.ID ccfg' = ConversationConfig.ID ccfg
  /\ (forall conv,
        liveConversation now (ConversationConfig.ID ccfg) w = Some conv ->
        res = Ok conv
        /\ objects w' = objects w
        /\ (forall t k, liveConversation t k w' = liveConversation t k w)
        /\ Permutation (LRU.items (conversationsCache (self w')))
             (LRU.items (conversationsCache (self w))))
  /\ (liveConversation now (ConversationConfig.ID ccfg) w = None ->
      res = Ok (length (objects w))
      /\ objects w' = objects w ++ [Conversation.fresh ccfg']
      /\ (forall t, t <= now + ConversationConfig.MaxAge ccfg' ->
                    liveConversation t id w' = Some (length (objects w)))
      /\ (forall t, liveConversation t (ConversationConfig.ID ccfg) w' = None)
      /\ (forall now2 ccfg2,
            ConversationConfig.ID ccfg2 = ConversationConfig.ID ccfg ->
            fst (fst (GetOrCreateConversation DefaultConversationMaxAge now2 id ccfg2 w'))
            = Ok (S (length (objects w))))
      /\ (forall ops t,
            liveConversation t (ConversationConfig.ID ccfg)
              (performAll DefaultConversationMaxAge ops w')
            <> Some (length (objects w)))).
Proof.
  intros Hwf Hcap Hne Hne0 r res ccfg' w'.
  assert (Hkey : forall c ccfg2,
             ConversationConfig.ID ccfg2 = ConversationConfig.ID ccfg ->
             ConversationConfig.ID (mergeDefaults DefaultConversationMaxAge c id ccfg2)
             = ConversationConfig.ID ccfg).
  { intros c ccfg2 H2. rewrite merged_ID, H2.
    now destruct (decide (ConversationConfig.ID ccfg = "")). }
  pose proof (Hkey (self w) ccfg eq_refl) as Hk.
  split; [|split].
  - subst ccfg' r.
    destruct (liveConversation now (ConversationConfig.ID ccfg) w) as [conv|] eqn:Hl;
      rewrite <- Hk in Hl.
    + now rewrite (getOrCreate_hit _ _ _ _ _ _ Hl).
    + now rewrite (getOrCreate_miss _ _ _ _ _ Hl).
  - intros conv Hl.
    assert (Hpeek : exists a,
               LRU.Peek now (ConversationConfig.ID ccfg) (conversationsCache (self w))
               = Some a).
    { unfold liveConversation in Hl.
      destruct (LRU.Peek now _ _) as [a|]; [now exists a | discriminate]. }
    destruct Hpeek as [a Hpeek].
    destruct (Get_hit_items _ _ _ _ Hpeek) as (it & Hfind & Hget).
    rewrite <- Hk in Hl. subst res w' r.
    rewrite (getOrCreate_hit _ _ _ _ _ _ Hl). cbn [fst snd objects self].
    rewrite Hk, Hget. cbn [conversationsCache with_cache LRU.items].
    split; [reflexivity|]. split; [reflexivity|]. split.
    + intros t k. unfold liveConversation. cbn [self conversationsCache with_cache].
      now rewrite (Peek_after_hit _ _ _ _ _ Hfind).
    + apply hit_permutes; [apply Hwf | exact Hfind].
  - intros Hl.
    pose proof (wf_live_None _ _ _ Hwf Hl) as Hpeek.
    pose proof (Get_miss_absent _ _ _ Hpeek) as Habsent.
    rewrite <- Hk in Hl. subst res ccfg' w' r.
    rewrite (getOrCreate_miss _ _ _ _ _ Hl). cbn [fst snd objects].
    set (m := mergeDefaults DefaultConversationMaxAge (self w) id ccfg) in *.
    set (cache1 := snd (LRU.Get now (ConversationConfig.ID m)
                          (conversationsCache (self w)))).
    assert (Hcap1 : LRU.capacity cache1 = LRU.capacity (conversationsCache (self w)))
      by apply Get_capacity.
    assert (Hgone : forall t,
               liveConversation t (ConversationConfig.ID ccfg)
                 {| self := with_cache
                              (LRU.Set_ now id (AConversation (length (objects w)))
                                 (ConversationConfig.MaxAge m) cache1) (self w);
                    objects := objects w ++ [Conversation.fresh m] |} = None).
    { intros t. unfold liveConversation, LRU.Peek, LRU.Set_. simpl.
      rewrite find_take_None; [reflexivity|]. simpl.
      destruct (decide (id = ConversationConfig.ID ccfg)); [congruence|].
      rewrite find_remove_ne by congruence.
      subst cache1. rewrite Hk. exact Habsent. }
    split; [reflexivity|]. split; [reflexivity|]. split; [|split; [|split]].
    + intros t Ht. unfold liveConversation, LRU.Peek, LRU.Set_. simpl.
      rewrite Hcap1.
      destruct (LRU.capacity (conversationsCache (self w))) as [|n]; [lia|].
      simpl. destruct (decide (id = id)); [|congruence]. simpl.
      unfold LRU.live. simpl.
      destruct (Z.leb_spec t (now + ConversationConfig.MaxAge m)); [reflexivity | lia].
    + exact Hgone.
    + intros now2 ccfg2 H2.
      rewrite getOrCreate_miss.
      * cbn [fst snd objects]. rewrite length_app. simpl. f_equal. lia.
      * cbn [self]. rewrite (Hkey _ ccfg2 H2). apply Hgone.
    + intros ops t.
      apply storedOnlyUnder_lookup with (id := id); [|exact Hne0].
      apply storedOnlyUnder_performAll. split.
      * cbn [objects]. rewrite length_app. simpl. lia.
      * cbn [self conversationsCache with_cache]. unfold LRU.Set_.
        cbn [LRU.items]. apply Forall_take. constructor; [reflexivity|].
        apply Forall_remove. subst cache1. apply Get_Forall.
        destruct Hwf as [_ Hvalid].
        eapply Forall_impl; [exact Hvalid|].
        intros it (r0 & Hv & Hr) Heq. rewrite Hv in Heq.
        injection Heq as Heq. lia.
Qed.

Lemma GetOrCreateConversation_key_mismatch_witness :
  wf emptyWorld
  /\ fst (fst (GetOrCreateConversation 3600 0 "a" configB emptyWorld)) = Ok 0%nat
  /\ (forall t,
        liveConversation t "b"
          (snd (GetOrCreateConversation 3600 0 "a" configB emptyWorld)) = None)
  /\ (forall now2,
        fst (fst (GetOrCreateConversation 3600 now2 "a" configB
                    (snd (GetOrCreateConversation 3600 0 "a" configB emptyWorld))))
        = Ok 1%nat)
  /\ (forall ops t,
        liveConversation t "b"
          (performAll 3600 ops
             (snd (GetOrCreateConversation 3600 0 "a" configB emptyWorld)))
        <> Some 0%nat).
Proof.
  split; [exact emptyWorld_wf|].
  destruct (GetOrCreateConversation_key_mismatch 3600 0 "a" configB emptyWorld)
    as (_ & _ & Hmiss).
  - exact emptyWorld_wf.
  - vm_compute. lia.
  - vm_compute. discriminate.
  - vm_compute. discriminate.
  - destruct (Hmiss ltac:(vm_compute; reflexivity))
      as (Hres & _ & _ & Hgone & Hagain & Hnever).
    split; [exact Hres|]. split; [exact Hgone|]. split; [|exact Hnever].
    intros now2. exact (Hagain now2 configB eq_refl).
Defined.

(** C10, as stated, fails: when a conversation is live under [cfg.ID], a
    call with another [id] returns that conversation, creates none and
    stores nothing under [id]. *)
Lemma mismatched_call_can_hit_another_entry :
  ConversationConfig.ID configB <> ""
  /\ ConversationConfig.ID configB <> "a"
  /\ fst (fst (GetOrCreateConversation 3600 1 "a" configB worldB)) = Ok 0%nat
  /\ objects (snd (GetOrCreateConversation 3600 1 "a" configB worldB))
     = objects worldB
  /\ liveConversation 1 "a" (snd (GetOrCreateConversation 3600 1 "a" configB worldB))
     = None.
Proof.
  split; [vm_compute; discriminate|]. split; [vm_compute; discriminate|].
  split; [|split]; vm_compute; reflexivity.
Qed.

(** When the looked-up key is the key of the insertion, a repeated call
    finds the conversation of the first call. *)
Lemma GetOrCreateConversation_repeated
    (DefaultConversationMaxAge now : Z) (id : string)
    (ccfg : ConversationConfig.t) (w : world) (conv : ref) :
  ConversationConfig.ID ccfg = "" \/ ConversationConfig.ID ccfg = id ->
  liveConversation now id w = Some conv ->
  fst (fst (GetOrCreateConversation DefaultConversationMaxAge now id ccfg w)) = Ok conv
  /\ objects (snd (GetOrCreateConversation DefaultConversationMaxAge now id ccfg w))
     = objects w.
Proof.
  intros Hkey Hlive.
  assert (Hk : ConversationConfig.ID
                 (mergeDefaults DefaultConversationMaxAge (self w) id ccfg) = id).
  { rewrite merged_ID.
    destruct (decide (ConversationConfig.ID ccfg = "")); [reflexivity|].
    now destruct Hkey. }
  rewrite <- Hk in Hlive.
  now rewrite (getOrCreate_hit _ _ _ _ _ _ Hlive).
Qed.

(** C7 at a failing input: a first call for the identifier a, then a
    second call for a whose configuration names the identifier b.  The
    second call does not return the conversation of the first: it creates
    a second one, with the settings of the second configuration, and
    stores it under a. *)
Theorem GetOrCreateConversation_second_call_replaces (DefaultConversationMaxAge : Z) :
  let r1 := GetOrCreateConversation DefaultConversationMaxAge 0 "a" configA emptyWorld in
  let r2 := GetOrCreateConversation DefaultConversationMaxAge 1 "a" configB (snd r1) in
  fst (fst r1) = Ok 0%nat
  /\ liveConversation 1 "a" (snd r1) = Some 0%nat
  /\ fst (fst r2) = Ok 1%nat
  /\ Conversation.context <$> objects (snd r2) !! 1%nat = Some "B"
  /\ liveConversation 1 "a" (snd r2) = Some 1%nat.
Proof. repeat split; vm_compute; reflexivity. Qed.

(** ** Asking *)

Section AskFacts.

Variable TrimSpace : string -> string.

(** [Ask] sends one request, and its outcome is decided by the answer to
    that request alone. *)
Lemma Ask_outcomes (c : client) (acfg : AskConfig.t) :
  exists request,
    snd (Ask TrimSpace c acfg) = [request]
    /\ match answerTo (core c) request with
       | Err e => fst (Ask TrimSpace c acfg) = Returns (Err e)
       | Ok [] =>
           fst (Ask TrimSpace c acfg)
           = Panics "index out of range [0] with length 0"
       | Ok (text :: _) =>
           fst (Ask TrimSpace c acfg) = Returns (Ok (TrimSpace text))
       end.
Proof.
  unfold Ask.
  destruct (decide _) as [Hchat|Hprompt].
  - destruct (chatMessages (AskConfig.Messages acfg)) as [n messages].
    eexists. split.
    + destruct (OpenAI.CreateChatCompletion (core c) _) as [completion|e];
        [destruct (OpenAI.ChatChoices completion)|]; reflexivity.
    + simpl.
      destruct (OpenAI.CreateChatCompletion (core c) _) as [completion|e];
        [destruct (OpenAI.ChatChoices completion)|]; reflexivity.
  - eexists. split.
    + destruct (OpenAI.CreateCompletion (core c) _) as [completion|e];
        [destruct (OpenAI.Choices completion)|]; reflexivity.
    + simpl.
      destruct (OpenAI.CreateCompletion (core c) _) as [completion|e];
        [destruct (OpenAI.Choices completion)|]; reflexivity.
Qed.

End AskFacts.

(** C9 at a failing input: the API answers successfully with an empty
    list of choices.  [Ask] then neither returns a trimmed text nor an
    error: indexing the first choice panics. *)
Theorem Ask_panics_without_choices
    (TrimSpace : string -> string) (cfg0 : Config.t) (cache : LRU.t)
    (acfg : AskConfig.t) :
  fst (Ask TrimSpace
         {| core := answering []; cfg := cfg0; conversationsCache := cache |} acfg)
  = Panics "index out of range [0] with length 0".
Proof.
  unfold Ask. destruct (decide _).
  - now destruct (chatMessages (AskConfig.Messages acfg)).
  - reflexivity.
Qed.

Example Ask_propagates_failure (TrimSpace : string -> string) :
  Ask TrimSpace (sampleClient (failing "timeout")) promptQuestion
  = (Returns (Err "timeout"),
     [OpenAI.CompletionCall
        {| OpenAI.Model := "text-davinci-003";
           OpenAI.Prompt := "hi";
           OpenAI.MaxTokens := 1000 |}]).
Proof. reflexivity. Qed.

Example Ask_trims_first_choice (TrimSpace : string -> string) :
  fst (Ask TrimSpace (sampleClient (answering [" hello "; "other"])) promptQuestion)
  = Returns (Ok (TrimSpace " hello ")).
Proof. reflexivity. Qed.

(** ** Reachable states are well formed *)

Lemma New_wf
    (DefaultMaxResponseTokens DefaultMaxConversations : Z)
    (openai_New : string -> string -> string -> result OpenAI.Client)
    (cfg0 : Config.t) (c : client) :
  New DefaultMaxResponseTokens DefaultMaxConversations openai_New cfg0 = Ok c ->
  wf {| self := c; objects := [] |}.
Proof.
  unfold New. destruct (openai_New _ _ _) as [api|e]; [|discriminate].
  intros [= <-]. split; simpl; constructor.
Qed.

Lemma New_defaults_name
    (DefaultMaxResponseTokens DefaultMaxConversations : Z)
    (openai_New : string -> string -> string -> result OpenAI.Client)
    (cfg0 : Config.t) (c : client) :
  New DefaultMaxResponseTokens DefaultMaxConversations openai_New cfg0 = Ok c ->
  Config.ChatGPTName cfg0 = "" ->
  Config.ChatGPTName (cfg c) = "ChatGPT".
Proof.
  unfold New. destruct (openai_New _ _ _) as [api|e]; [|discriminate].
  intros [= <-] Hname. simpl.
  repeat match goal with
         | |- context [decide ?P] => destruct (decide P); simpl in *
         end; congruence.
Qed.

Lemma ChangeConversationModel_wf (now : Z) (id model : string) (w : world) :
  wf w -> wf (snd (ChangeConversationModel now id model w)).
Proof.
  intros Hwf. unfold ChangeConversationModel.
  destruct (liveConversation now id w) as [conv|] eqn:Hl.
  - rewrite (GetConversation_hit _ _ _ _ Hl). unfold wf. simpl.
    rewrite length_alter. now apply Get_wf.
  - rewrite (GetConversation_miss _ _ _ Hl). unfold wf. simpl. now apply Get_wf.
Qed.

(** ** Examples *)

Example budget_100_1000_50 : calculationPromptMaxTokens 100 1000 50 = 50.
Proof. reflexivity. Qed.

Example float64_drops_low_bit : GoInt.float64_of_int (2 ^ 53 + 1) = 2 ^ 53.
Proof. reflexivity. Qed.

Example float64_rounds_max_int_up : GoInt.float64_of_int GoInt.max_int = 2 ^ 63.
Proof. reflexivity. Qed.

Example float64_keeps_even_neighbour :
  GoInt.float64_of_int (2 ^ 53 + 3) = 2 ^ 53 + 4.
Proof. reflexivity. Qed.

Example buildPrompt_drops_oldest :
  fst (buildPrompt "You are helpful" "2024-01-01" [hi; hello] 100)
  = "You are helpful" +:+ LF +:+ "Current date: 2024-01-01<|endoftext|>"
    +:+ LF +:+ LF +:+ "ChatGPT:" +:+ LF +:+ LF +:+ "hello<|endoftext|>"
    +:+ LF +:+ LF +:+ "ChatGPT:".
Proof. vm_compute. reflexivity. Qed.

(** * Further properties *)

(** ** The budget of the prompt *)

Section Budget.

Variable maxLength : Z.

(** When everything fits below the bound, nothing stops the walk. *)
Lemma walk_fits (l : list Message) :
  forall v,
    0 <= charCountRes v ->
    charCountRes v + total l <= GoInt.max_int ->
    charCountRes v + total l < maxLength ->
    coreMessages (SafeList.ForEach (visit maxLength) l v)
    = concat_str (map block (rev l)) +:+ coreMessages v.
Proof.
  induction l as [|m l IH]; intros v H0 Hfit Hlt; [reflexivity|].
  rewrite ForEach_cons. simpl in Hfit, Hlt.
  pose proof (total_nonneg l) as Hl.
  pose proof (len_nonneg (render m)) as Hr.
  pose proof (len_nonneg endOfText) as He.
  assert (Hadd : GoInt.add (charCountRes v)
                   (GoInt.add (GoInt.len (render m)) (GoInt.len endOfText))
                 = charCountRes v + blockLen m).
  { unfold blockLen in *. rewrite (add_small (GoInt.len (render m))) by lia.
    apply add_small; lia. }
  destruct (visit_cases maxLength m v)
    as [(_ & Hge & _) | (_ & Hs & Hc & Hcore)].
  - rewrite Hadd in Hge. unfold blockLen in *. lia.
  - rewrite Hs. rewrite Hadd in Hc.
    rewrite IH; rewrite ?Hc; unfold blockLen in *; try lia.
    rewrite Hcore. simpl rev.
    rewrite map_app, concat_str_app. simpl map.
    change (concat_str [block m]) with (block m +:+ "").
    now rewrite append_empty_r, append_assoc.
Qed.

(** Where the walk stops, the next block would have reached the bound. *)
Lemma walk_stops_full (l : list Message) :
  forall v t,
    SafeList.stopsAt (visit maxLength) l v = Some t ->
    0 <= charCountRes v ->
    charCountRes v + total l <= GoInt.max_int ->
    exists kept rest,
      l = kept ++ t :: rest /\
      coreMessages (SafeList.ForEach (visit maxLength) l v)
      = concat_str (map block (rev kept)) +:+ coreMessages v /\
      0 < maxLength /\
      maxLength <= charCountRes v + total kept + blockLen t.
Proof.
  induction l as [|m l IH]; intros v t Hstop H0 Hfit; [discriminate|].
  rewrite stopsAt_cons in Hstop. rewrite ForEach_cons. simpl in Hfit.
  pose proof (total_nonneg l) as Hl.
  pose proof (len_nonneg (render m)) as Hr.
  pose proof (len_nonneg endOfText) as He.
  assert (Hadd : GoInt.add (charCountRes v)
                   (GoInt.add (GoInt.len (render m)) (GoInt.len endOfText))
                 = charCountRes v + blockLen m).
  { unfold blockLen in *. rewrite (add_small (GoInt.len (render m))) by lia.
    apply add_small; lia. }
  destruct (visit_cases maxLength m v)
    as [(Hpos & Hge & Hs & _ & Hcore) | (_ & Hs & Hc & Hcore)];
    rewrite Hs in *.
  - injection Hstop as <-. exists [], l. rewrite Hadd in Hge.
    split; [reflexivity|]. split; [now rewrite Hcore|].
    split; [exact Hpos | simpl; lia].
  - rewrite Hadd in Hc.
    destruct (IH _ _ Hstop) as (kept & rest & -> & Hk & Hpos & Hge).
    + rewrite Hc. unfold blockLen. lia.
    + rewrite Hc. unfold blockLen in *. lia.
    + exists (m :: kept), rest. split; [reflexivity|]. split; [|split].
      * rewrite Hk, Hcore. simpl rev.
        rewrite map_app, concat_str_app. simpl map.
        change (concat_str [block m]) with (block m +:+ "").
        now rewrite append_empty_r, append_assoc.
      * exact Hpos.
      * rewrite Hc in Hge. simpl. lia.
Qed.

End Budget.

(** The branch of the callback that accepts does not look at the bound. *)
Lemma visit_accept_eq (M M' : Z) (m : Message) (v : locals) :
  snd (visit M m v) = false -> snd (visit M' m v) = false ->
  fst (visit M m v) = fst (visit M' m v).
Proof.
  unfold visit.
  destruct ((0 <? M) && _); [discriminate|].
  destruct ((0 <? M') && _); [discriminate|]. reflexivity.
Qed.

(** A walk under a larger bound accepts what a walk under a smaller bound
    accepts, and possibly more. *)
Lemma walk_monotone (M M' : Z) (l : list Message) :
  0 < M -> M <= M' \/ M' <= 0 ->
  forall v,
    exists kept extra rest,
      l = kept ++ extra ++ rest /\
      coreMessages (SafeList.ForEach (visit M) l v)
      = concat_str (map block (rev kept)) +:+ coreMessages v /\
      coreMessages (SafeList.ForEach (visit M') l v)
      = concat_str (map block (rev (kept ++ extra))) +:+ coreMessages v.
Proof.
  intros HM HMM'. induction l as [|m l IH]; intros v.
  - exists [], [], []. repeat split.
  - destruct (visit_cases M m v)
      as [(_ & _ & Hs & _ & Hcore) | (Hlt & Hs & Hc & Hcore)].
    + destruct (walk_prefix M' (m :: l) v) as (extra & rest & Hsplit & Hk).
      exists [], extra, rest. split; [exact Hsplit|]. split.
      * rewrite ForEach_cons, Hs. now rewrite Hcore.
      * exact Hk.
    + destruct Hlt as [Hlt|Hlt]; [lia|].
      assert (Hs' : snd (visit M' m v) = false).
      { destruct (visit_cases M' m v) as [(Hpos' & Hge & _) | (_ & Hs' & _)];
          [|exact Hs'].
        destruct HMM'; lia. }
      pose proof (visit_accept_eq M M' m v Hs Hs') as Heq.
      destruct (IH (fst (visit M m v))) as (kept & extra & rest & -> & HkM & HkM').
      exists (m :: kept), extra, rest. split; [reflexivity|].
      rewrite !ForEach_cons, Hs, Hs', <- Heq, HkM, HkM', Hcore.
      split.
      * simpl rev. rewrite map_app, concat_str_app. simpl map.
        change (concat_str [block m]) with (block m +:+ "").
        now rewrite append_empty_r, append_assoc.
      * change ((m :: kept) ++ extra) with (m :: (kept ++ extra)). simpl rev.
        rewrite map_app, concat_str_app. simpl map.
        change (concat_str [block m]) with (block m +:+ "").
        now rewrite append_empty_r, append_assoc.
Qed.

(** The prompt stays below the bound plus one separator: the counter
    covers the header, the trailer and the blocks, but not the separator
    that follows the header. *)
Theorem buildPrompt_length_bound
    (context date : string) (messages : list Message) (maxLength : Z) :
  0 < maxLength ->
  prompt_fits context date messages ->
  GoInt.len (contextMessage context date) + GoInt.len endMessage < maxLength ->
  GoInt.len (fst (buildPrompt context date messages maxLength))
  < maxLength + GoInt.len endOfText.
Proof.
  intros Hpos Hfit Hhead.
  unfold prompt_fits in Hfit. pose proof (total_nonneg messages) as Htot.
  assert (Hinit : charCountRes (initial context date)
                  = GoInt.len (contextMessage context date) + GoInt.len endMessage).
  { apply initial_count. lia. }
  pose proof (walk_below maxLength (rev messages) Hpos (initial context date)) as Hlt.
  rewrite Hinit in Hlt. specialize (Hlt Hhead).
  pose proof (walk_count maxLength (rev messages) (initial context date)) as Hcnt.
  rewrite Hinit, total_rev in Hcnt.
  pose proof (len_nonneg (contextMessage context date)).
  pose proof (len_nonneg endMessage).
  specialize (Hcnt ltac:(lia) ltac:(lia)).
  change (GoInt.len (coreMessages (initial context date))) with 0 in Hcnt.
  unfold buildPrompt, SafeList.Reverse. cbn [fst].
  rewrite !len_append. lia.
Qed.

Lemma buildPrompt_length_bound_witness :
  GoInt.len (fst (buildPrompt "You are helpful" "2024-01-01" [hi; hello] 100))
  < 100 + GoInt.len endOfText.
Proof.
  apply (buildPrompt_length_bound "You are helpful" "2024-01-01" [hi; hello] 100).
  - lia.
  - unfold prompt_fits. vm_compute. discriminate.
  - vm_compute. reflexivity.
Defined.

(** A history that fits below the bound together with the header and the
    trailer is kept in full, oldest first. *)
Theorem buildPrompt_keeps_all_when_fits
    (context date : string) (messages : list Message) (maxLength : Z) :
  prompt_fits context date messages ->
  GoInt.len (contextMessage context date) + GoInt.len endMessage + total messages
  < maxLength ->
  fst (buildPrompt context date messages maxLength)
  = contextMessage context date +:+ endOfText
    +:+ concat_str (map block messages) +:+ endMessage.
Proof.
  intros Hfit Hlt. unfold prompt_fits in Hfit.
  pose proof (total_nonneg messages) as Htot.
  pose proof (len_nonneg (contextMessage context date)).
  pose proof (len_nonneg endMessage).
  assert (Hinit : charCountRes (initial context date)
                  = GoInt.len (contextMessage context date) + GoInt.len endMessage).
  { apply initial_count. lia. }
  unfold buildPrompt, SafeList.Reverse. cbn [fst].
  rewrite (walk_fits maxLength (rev messages));
    rewrite ?Hinit, ?total_rev; try lia.
  now rewrite rev_involutive, append_empty_r.
Qed.

Lemma buildPrompt_keeps_all_when_fits_witness :
  fst (buildPrompt "You are helpful" "2024-01-01" [hi; hello] 103)
  = contextMessage "You are helpful" "2024-01-01" +:+ endOfText
    +:+ concat_str (map block [hi; hello]) +:+ endMessage.
Proof.
  apply (buildPrompt_keeps_all_when_fits "You are helpful" "2024-01-01" [hi; hello] 103).
  - unfold prompt_fits. vm_compute. discriminate.
  - vm_compute. reflexivity.
Defined.

(** The cut is greedy: where the walk stops, the bound is positive and the
    triggering block, added to the header, the trailer and the blocks
    kept, reaches it. *)
Theorem buildPrompt_stop_is_forced
    (context date : string) (messages : list Message) (maxLength : Z)
    (trig : Message) :
  prompt_fits context date messages ->
  trigger context date messages maxLength = Some trig ->
  exists older kept,
    messages = older ++ trig :: kept /\
    fst (buildPrompt context date messages maxLength)
    = contextMessage context date +:+ endOfText
      +:+ concat_str (map block kept) +:+ endMessage /\
    0 < maxLength /\
    maxLength
    <= GoInt.len (contextMessage context date) + GoInt.len endMessage
       + total kept + blockLen trig.
Proof.
  intros Hfit Htrig. unfold prompt_fits in Hfit.
  pose proof (total_nonneg messages) as Htot.
  pose proof (len_nonneg (contextMessage context date)).
  pose proof (len_nonneg endMessage).
  assert (Hinit : charCountRes (initial context date)
                  = GoInt.len (contextMessage context date) + GoInt.len endMessage).
  { apply initial_count. lia. }
  unfold trigger, SafeList.Reverse in Htrig.
  destruct (walk_stops_full maxLength _ _ _ Htrig)
    as (kept & rest & Hsplit & Hcore & Hpos & Hge);
    rewrite ?Hinit, ?total_rev; try lia.
  exists (rev rest), (rev kept). split; [now apply rev_split|].
  unfold buildPrompt, SafeList.Reverse. cbn [fst].
  rewrite Hcore, append_empty_r. split; [reflexivity|].
  split; [exact Hpos|]. rewrite total_rev. rewrite Hinit in Hge. exact Hge.
Qed.

Lemma buildPrompt_stop_is_forced_witness :
  exists older kept,
    [hi; hello] = older ++ hi :: kept /\
    fst (buildPrompt "You are helpful" "2024-01-01" [hi; hello] 100)
    = contextMessage "You are helpful" "2024-01-01" +:+ endOfText
      +:+ concat_str (map block kept) +:+ endMessage /\
    0 < 100 /\
    100 <= GoInt.len (contextMessage "You are helpful" "2024-01-01")
           + GoInt.len endMessage + total kept + blockLen hi.
Proof.
  apply (buildPrompt_stop_is_forced "You are helpful" "2024-01-01" [hi; hello] 100 hi).
  - unfold prompt_fits. vm_compute. discriminate.
  - vm_compute. reflexivity.
Defined.

(** Raising the bound, or lifting it, never drops a message: the messages
    kept under the smaller bound are kept under the larger one, with
    possibly some older messages before them. *)
Theorem buildPrompt_monotone
    (context date : string) (messages : list Message) (M M' : Z) :
  0 < M -> M <= M' \/ M' <= 0 ->
  exists older extra kept,
    messages = older ++ extra ++ kept /\
    fst (buildPrompt context date messages M)
    = contextMessage context date +:+ endOfText
      +:+ concat_str (map block kept) +:+ endMessage /\
    fst (buildPrompt context date messages M')
    = contextMessage context date +:+ endOfText
      +:+ concat_str (map block (extra ++ kept)) +:+ endMessage.
Proof.
  intros HM HMM'.
  destruct (walk_monotone M M' (rev messages) HM HMM' (initial context date))
    as (kept & extra & rest & Hsplit & HkM & HkM').
  exists (rev rest), (rev extra), (rev kept). split; [|split].
  - rewrite <- (rev_involutive messages), Hsplit.
    rewrite !rev_app_distr. now rewrite app_assoc.
  - unfold buildPrompt, SafeList.Reverse. cbn [fst].
    now rewrite HkM, append_empty_r.
  - unfold buildPrompt, SafeList.Reverse. cbn [fst].
    now rewrite HkM', append_empty_r, rev_app_distr.
Qed.

Lemma buildPrompt_monotone_witness :
  exists older extra kept,
    [hi; hello] = older ++ extra ++ kept /\
    fst (buildPrompt "You are helpful" "2024-01-01" [hi; hello] 100)
    = contextMessage "You are helpful" "2024-01-01" +:+ endOfText
      +:+ concat_str (map block kept) +:+ endMessage /\
    fst (buildPrompt "You are helpful" "2024-01-01" [hi; hello] 200)
    = contextMessage "You are helpful" "2024-01-01" +:+ endOfText
      +:+ concat_str (map block (extra ++ kept)) +:+ endMessage.
Proof.
  apply (buildPrompt_monotone "You are helpful" "2024-01-01" [hi; hello] 100 200).
  - lia.
  - left. lia.
Defined.

(** ** The requests of [Ask] *)

Lemma chatMessages_fold (l : list Message) :
  forall acc,
    snd (fold_left
           (fun acc msg =>
              (GoInt.add (fst acc) (GoInt.len (Text msg)),
               snd acc ++ [ {| OpenAI.Role := Role msg; OpenAI.Content := Text msg |} ]))
           l acc)
    = snd acc ++ map chatRecord l.
Proof.
  induction l as [|m l IH]; intros acc; simpl.
  - now rewrite app_nil_r.
  - rewrite IH. simpl. now rewrite <- app_assoc.
Qed.

Lemma chatMessages_records (l : list Message) :
  snd (chatMessages l) = map chatRecord l.
Proof. unfold chatMessages. now rewrite chatMessages_fold. Qed.

(** For a chat model [Ask] sends one chat request: the model as given,
    one record per message, in order, with its role and text, the
    temperature 0.1, and as token limit the client's response limit after
    its round trip through a double. *)
Theorem Ask_chat_request
    (TrimSpace : string -> string) (c : client) (acfg : AskConfig.t) :
  AskConfig.Model acfg = OpenAI.ModelGPT3_5Turbo
  \/ AskConfig.Model acfg = OpenAI.ModelGPT3_5Turbo0301 ->
  snd (Ask TrimSpace c acfg)
  = [OpenAI.ChatCall
       {| OpenAI.ChatModel := AskConfig.Model acfg;
          OpenAI.ChatMessages := map chatRecord (AskConfig.Messages acfg);
          OpenAI.ChatMaxTokens :=
            GoInt.int_of_float64
              (GoInt.float64_of_int (Config.MaxResponseTokens (cfg c)));
          OpenAI.Temperature := (1 # 10)%Q |}].
Proof.
  intros Hchat. unfold Ask.
  destruct (decide _) as [_|Hno]; [|contradiction].
  pose proof (chatMessages_records (AskConfig.Messages acfg)) as Hrec.
  destruct (chatMessages (AskConfig.Messages acfg)) as [n messages].
  simpl in Hrec. subst messages.
  rewrite calculationPromptMaxTokens_round_trip.
  destruct (OpenAI.CreateChatCompletion (core c) _) as [completion|e];
    [destruct (OpenAI.ChatChoices completion)|]; reflexivity.
Qed.

Lemma Ask_chat_request_witness :
  snd (Ask (fun s => s) (sampleClient (answering ["hello"]))
         {| AskConfig.Model := "gpt-3.5-turbo";
            AskConfig.Prompt := "";
            AskConfig.Messages := [hi; hello];
            AskConfig.MaxRequestResponseTokens := 4000 |})
  = [OpenAI.ChatCall
       {| OpenAI.ChatModel := "gpt-3.5-turbo";
          OpenAI.ChatMessages := map chatRecord [hi; hello];
          OpenAI.ChatMaxTokens :=
            GoInt.int_of_float64 (GoInt.float64_of_int 1000);
          OpenAI.Temperature := (1 # 10)%Q |}].
Proof.
  apply (Ask_chat_request (fun s => s) (sampleClient (answering ["hello"]))
           {| AskConfig.Model := "gpt-3.5-turbo";
              AskConfig.Prompt := "";
              AskConfig.Messages := [hi; hello];
              AskConfig.MaxRequestResponseTokens := 4000 |}).
  left. reflexivity.
Defined.

(** The combined request and response limit of an [AskConfig] has no
    effect on what [Ask] sends or returns. *)
Theorem Ask_ignores_request_cap
    (TrimSpace : string -> string) (c : client)
    (model prompt : string) (messages : list Message) (cap cap' : Z) :
  Ask TrimSpace c
    {| AskConfig.Model := model; AskConfig.Prompt := prompt;
       AskConfig.Messages := messages;
       AskConfig.MaxRequestResponseTokens := cap |}
  = Ask TrimSpace c
      {| AskConfig.Model := model; AskConfig.Prompt := prompt;
         AskConfig.Messages := messages;
         AskConfig.MaxRequestResponseTokens := cap' |}.
Proof.
  unfold Ask. cbn [AskConfig.Model AskConfig.Prompt AskConfig.Messages
                     AskConfig.MaxRequestResponseTokens].
  destruct (decide _).
  - destruct (chatMessages messages) as [n records].
    now rewrite !calculationPromptMaxTokens_round_trip.
  - now rewrite !calculationPromptMaxTokens_round_trip.
Qed.

(** [Ask] routes by the model: for a chat model the prompt text plays no
    part, for every other model the messages play no part. *)
Theorem Ask_routing
    (TrimSpace : string -> string) (c : client)
    (model prompt prompt' : string) (messages messages' : list Message)
    (cap : Z) :
  (model = OpenAI.ModelGPT3_5Turbo \/ model = OpenAI.ModelGPT3_5Turbo0301 ->
   Ask TrimSpace c
     {| AskConfig.Model := model; AskConfig.Prompt := prompt;
        AskConfig.Messages := messages;
        AskConfig.MaxRequestResponseTokens := cap |}
   = Ask TrimSpace c
       {| AskConfig.Model := model; AskConfig.Prompt := prompt';
          AskConfig.Messages := messages;
          AskConfig.MaxRequestResponseTokens := cap |})
  /\ (~ (model = OpenAI.ModelGPT3_5Turbo \/ model = OpenAI.ModelGPT3_5Turbo0301) ->
      Ask TrimSpace c
        {| AskConfig.Model := model; AskConfig.Prompt := prompt;
           AskConfig.Messages := messages;
           AskConfig.MaxRequestResponseTokens := cap |}
      = Ask TrimSpace c
          {| AskConfig.Model := model; AskConfig.Prompt := prompt;
             AskConfig.Messages := messages';
             AskConfig.MaxRequestResponseTokens := cap |}).
Proof.
  split; intros H; unfold Ask;
    cbn [AskConfig.Model AskConfig.Prompt AskConfig.Messages
           AskConfig.MaxRequestResponseTokens];
    destruct (decide _); try contradiction; reflexivity.
Qed.

Lemma Ask_routing_witness :
  Ask (fun s => s) (sampleClient (answering ["hello"]))
    {| AskConfig.Model := "gpt-3.5-turbo"; AskConfig.Prompt := "one";
       AskConfig.Messages := [hi];
       AskConfig.MaxRequestResponseTokens := 0 |}
  = Ask (fun s => s) (sampleClient (answering ["hello"]))
      {| AskConfig.Model := "gpt-3.5-turbo"; AskConfig.Prompt := "two";
         AskConfig.Messages := [hi];
         AskConfig.MaxRequestResponseTokens := 0 |}
  /\ Ask (fun s => s) (sampleClient (answering ["hello"]))
       {| AskConfig.Model := "text-davinci-003"; AskConfig.Prompt := "one";
          AskConfig.Messages := [hi];
          AskConfig.MaxRequestResponseTokens := 0 |}
     = Ask (fun s => s) (sampleClient (answering ["hello"]))
         {| AskConfig.Model := "text-davinci-003"; AskConfig.Prompt := "one";
            AskConfig.Messages := [hello];
            AskConfig.MaxRequestResponseTokens := 0 |}.
Proof.
  split.
  - destruct (Ask_routing (fun s => s) (sampleClient (answering ["hello"]))
                "gpt-3.5-turbo" "one" "two" [hi] [hi] 0) as [Hchat _].
    apply Hchat. left. reflexivity.
  - destruct (Ask_routing (fun s => s) (sampleClient (answering ["hello"]))
                "text-davinci-003" "one" "one" [hi] [hello] 0) as [_ Hprompt].
    apply Hprompt. vm_compute. intros [H|H]; discriminate H.
Defined.

(** ** Merging the defaults *)

Lemma config_ext (a b : ConversationConfig.t) :
  ConversationConfig.ID a = ConversationConfig.ID b ->
  ConversationConfig.MaxAge a = ConversationConfig.MaxAge b ->
  ConversationConfig.Context a = ConversationConfig.Context b ->
  ConversationConfig.Language a = ConversationConfig.Language b ->
  ConversationConfig.ChatGPTName a = ConversationConfig.ChatGPTName b ->
  a = b.
Proof. destruct a, b. simpl. now intros -> -> -> -> ->. Qed.

Lemma mergeDefaults_stages
    (D : Z) (c : client) (id : string) (ccfg : ConversationConfig.t) :
  mergeDefaults D c id ccfg
  = defaultChatGPTName c
      (defaultLanguage c (defaultContext c (defaultMaxAge D (defaultID id ccfg)))).
Proof. reflexivity. Qed.

Ltac merged_field :=
  rewrite mergeDefaults_stages;
  unfold defaultChatGPTName, defaultLanguage, defaultContext, defaultMaxAge,
    defaultID;
  repeat (case_decide;
          cbn [ConversationConfig.ID ConversationConfig.MaxAge
                 ConversationConfig.Context ConversationConfig.Language
                 ConversationConfig.ChatGPTName
                 ConversationConfig.with_ID ConversationConfig.with_MaxAge
                 ConversationConfig.with_Context ConversationConfig.with_Language
                 ConversationConfig.with_ChatGPTName] in *);
  first [reflexivity | congruence | tauto].

Lemma merged_MaxAge (D : Z) (c : client) (id : string) (ccfg : ConversationConfig.t) :
  ConversationConfig.MaxAge (mergeDefaults D c id ccfg)
  = if decide (ConversationConfig.MaxAge ccfg = 0) then D
    else ConversationConfig.MaxAge ccfg.
Proof. merged_field. Qed.

Lemma merged_Context (D : Z) (c : client) (id : string) (ccfg : ConversationConfig.t) :
  ConversationConfig.Context (mergeDefaults D c id ccfg)
  = if decide (ConversationConfig.Context ccfg = ""
               /\ Config.ConversationContext (cfg c) <> "")
    then Config.ConversationContext (cfg c)
    else ConversationConfig.Context ccfg.
Proof. merged_field. Qed.

Lemma merged_Language (D : Z) (c : client) (id : string) (ccfg : ConversationConfig.t) :
  ConversationConfig.Language (mergeDefaults D c id ccfg)
  = if decide (ConversationConfig.Language ccfg = ""
               /\ Config.ConversationLanguage (cfg c) <> "")
    then Config.ConversationLanguage (cfg c)
    else ConversationConfig.Language ccfg.
Proof. merged_field. Qed.

Lemma merged_ChatGPTName (D : Z) (c : client) (id : string) (ccfg : ConversationConfig.t) :
  ConversationConfig.ChatGPTName (mergeDefaults D c id ccfg)
  = if decide (ConversationConfig.ChatGPTName ccfg = "")
    then Config.ChatGPTName (cfg c)
    else ConversationConfig.ChatGPTName ccfg.
Proof. merged_field. Qed.

(** The defaults are merged once and for all: handing the configuration
    back to a second call changes nothing more. *)
Theorem mergeDefaults_idempotent
    (DefaultConversationMaxAge : Z) (c : client) (id : string)
    (ccfg : ConversationConfig.t) :
  mergeDefaults DefaultConversationMaxAge c id
    (mergeDefaults DefaultConversationMaxAge c id ccfg)
  = mergeDefaults DefaultConversationMaxAge c id ccfg.
Proof.
  apply config_ext.
  - rewrite !merged_ID. repeat case_decide; congruence.
  - rewrite !merged_MaxAge. repeat case_decide; congruence.
  - rewrite !merged_Context. repeat case_decide; try congruence; tauto.
  - rewrite !merged_Language. repeat case_decide; try congruence; tauto.
  - rewrite !merged_ChatGPTName. repeat case_decide; congruence.
Qed.

(** ** Lookups after insertions, resets and expiry *)

Lemma Peek_Set_live (now t : Z) (k : string) (v : any) (maxAge : Z) (c : LRU.t) :
  (0 < LRU.capacity c)%nat -> t <= now + maxAge ->
  LRU.Peek t k (LRU.Set_ now k v maxAge c) = Some v.
Proof.
  intros Hcap Ht. unfold LRU.Peek, LRU.Set_. simpl.
  destruct (LRU.capacity c) as [|n]; [lia|]. simpl.
  destruct (decide (k = k)); [|congruence]. unfold LRU.live. simpl.
  destruct (Z.leb_spec t (now + maxAge)); [reflexivity | lia].
Qed.

Lemma Peek_Set_expired (now t : Z) (k : string) (v : any) (maxAge : Z) (c : LRU.t) :
  now + maxAge < t -> LRU.Peek t k (LRU.Set_ now k v maxAge c) = None.
Proof.
  intros Ht. unfold LRU.Peek, LRU.Set_. simpl.
  destruct (LRU.capacity c) as [|n]; [reflexivity|]. simpl.
  destruct (decide (k = k)); [|congruence]. unfold LRU.live. simpl.
  destruct (Z.leb_spec t (now + maxAge)); [lia | reflexivity].
Qed.

Lemma Get_capacity_items (now : Z) (k : string) (c : LRU.t) :
  (length (LRU.items c) <= LRU.capacity c)%nat ->
  (length (LRU.items (snd (LRU.Get now k c))) <= LRU.capacity (snd (LRU.Get now k c)))%nat.
Proof.
  intros Hb. unfold LRU.Get.
  destruct (LRU.find k (LRU.items c)) as [it|] eqn:Hf; [|exact Hb].
  assert (Hlt : (S (length (LRU.remove k (LRU.items c))) <= length (LRU.items c))%nat).
  { clear Hb. revert Hf. induction (LRU.items c) as [|x l IH]; simpl; [discriminate|].
    destruct (decide (LRU.key x = k)) as [Hx|Hx]; intros Hf.
    - rewrite remove_cons_eq by exact Hx.
      pose proof (length_filter (fun it => LRU.key it <> k) l) as Hle.
      unfold LRU.remove. lia.
    - rewrite remove_cons_ne by exact Hx. simpl. specialize (IH Hf). lia. }
  destruct (LRU.live now it); simpl; lia.
Qed.

Lemma ChangeConversationModel_error (now : Z) (id model : string) (w : world) :
  liveConversation now id w = None ->
  fst (ChangeConversationModel now id model w) = Some (notFound id).
Proof.
  intros Hl. unfold ChangeConversationModel.
  now rewrite (GetConversation_miss _ _ _ Hl).
Qed.

(** When the key looked up is the key written ([cfg.ID] empty or equal to
    [id]) and a conversation is live under [id], the call returns that
    conversation and leaves every conversation object as it was: the
    configuration supplied with the call is not applied to it. *)
Theorem GetOrCreateConversation_returns_cached
    (DefaultConversationMaxAge now : Z) (id : string)
    (ccfg : ConversationConfig.t) (w : world) (conv : ref) :
  ConversationConfig.ID ccfg = "" \/ ConversationConfig.ID ccfg = id ->
  liveConversation now id w = Some conv ->
  let r := GetOrCreateConversation DefaultConversationMaxAge now id ccfg w in
  fst (fst r) = Ok conv
  /\ objects (snd r) = objects w
  /\ (forall t k, liveConversation t k (snd r) = liveConversation t k w).
Proof.
  intros Hkey Hlive r.
  assert (Hk : ConversationConfig.ID
                 (mergeDefaults DefaultConversationMaxAge (self w) id ccfg) = id).
  { rewrite merged_ID.
    destruct (decide (ConversationConfig.ID ccfg = "")); [reflexivity|].
    now destruct Hkey. }
  pose proof Hlive as Hlive'. rewrite <- Hk in Hlive'.
  subst r. rewrite (getOrCreate_hit _ _ _ _ _ _ Hlive'). cbn [fst snd objects].
  split; [reflexivity|]. split; [reflexivity|].
  intros t k. unfold liveConversation. cbn [self conversationsCache with_cache].
  rewrite Hk.
  assert (Hpeek : exists a, LRU.Peek now id (conversationsCache (self w)) = Some a).
  { unfold liveConversation in Hlive.
    destruct (LRU.Peek now id _) as [a|]; [now exists a | discriminate]. }
  destruct Hpeek as [a Hpeek].
  destruct (Get_hit_items _ _ _ _ Hpeek) as (it & Hfind & ->).
  now rewrite (Peek_after_hit _ _ _ _ _ Hfind).
Qed.

Lemma GetOrCreateConversation_returns_cached_witness :
  fst (fst (GetOrCreateConversation 3600 1 "a" configA worldA)) = Ok 0%nat
  /\ objects (snd (GetOrCreateConversation 3600 1 "a" configA worldA))
     = objects worldA
  /\ (forall t k,
        liveConversation t k (snd (GetOrCreateConversation 3600 1 "a" configA worldA))
        = liveConversation t k worldA).
Proof.
  apply (GetOrCreateConversation_returns_cached 3600 1 "a" configA worldA 0%nat).
  - left. reflexivity.
  - vm_compute. reflexivity.
Defined.

(** Insert, then look up: a conversation created under its own key can
    have its model changed until its age runs out, and the change lands
    in the object the creation returned: its model field holds the given
    model, its history is empty and its other fields are the merged
    settings. *)
Theorem create_then_change_model
    (DefaultConversationMaxAge now now' : Z) (id model : string)
    (ccfg : ConversationConfig.t) (w : world) :
  (0 < LRU.capacity (conversationsCache (self w)))%nat ->
  ConversationConfig.ID ccfg = "" \/ ConversationConfig.ID ccfg = id ->
  liveConversation now id w = None ->
  now' <= now + ConversationConfig.MaxAge
                  (mergeDefaults DefaultConversationMaxAge (self w) id ccfg) ->
  let r1 := GetOrCreateConversation DefaultConversationMaxAge now id ccfg w in
  let r2 := ChangeConversationModel now' id model (snd r1) in
  fst (fst r1) = Ok (length (objects w))
  /\ fst r2 = None
  /\ (exists created,
        objects (snd r2) !! length (objects w) = Some created
        /\ Conversation.model created = model
        /\ Conversation.history created = []
        /\ Conversation.id created = id
        /\ Conversation.context created
           = ConversationConfig.Context
               (mergeDefaults DefaultConversationMaxAge (self w) id ccfg)
        /\ Conversation.language created
           = ConversationConfig.Language
               (mergeDefaults DefaultConversationMaxAge (self w) id ccfg)
        /\ Conversation.assistantName created
           = ConversationConfig.ChatGPTName
               (mergeDefaults DefaultConversationMaxAge (self w) id ccfg)
        /\ Conversation.maxAge created
           = ConversationConfig.MaxAge
               (mergeDefaults DefaultConversationMaxAge (self w) id ccfg))
  /\ (forall other, (other < length (objects w))%nat ->
                    objects (snd r2) !! other = objects w !! other).
Proof.
  intros Hcap Hkey Hlive Hage r1 r2.
  assert (Hk : ConversationConfig.ID
                 (mergeDefaults DefaultConversationMaxAge (self w) id ccfg) = id).
  { rewrite merged_ID.
    destruct (decide (ConversationConfig.ID ccfg = "")); [reflexivity|].
    now destruct Hkey. }
  pose proof Hlive as Hlive'. rewrite <- Hk in Hlive'.
  subst r2 r1. rewrite (getOrCreate_miss _ _ _ _ _ Hlive'). cbn [fst snd].
  set (m := mergeDefaults DefaultConversationMaxAge (self w) id ccfg) in *.
  split; [reflexivity|].
  match goal with
  | |- context [ChangeConversationModel now' id model ?w1] => set (w1' := w1)
  end.
  assert (Hnow : liveConversation now' id w1' = Some (length (objects w))).
  { unfold liveConversation. subst w1'. cbn [self conversationsCache with_cache].
    rewrite Peek_Set_live; [reflexivity| |exact Hage].
    now rewrite Get_capacity. }
  unfold ChangeConversationModel.
  rewrite (GetConversation_hit _ _ _ _ Hnow). cbn [fst snd objects SetModel].
  subst w1'. cbn [objects].
  split; [reflexivity|]. split.
  - exists (Conversation.with_model model (Conversation.fresh m)). split.
    + rewrite list_lookup_alter_eq.
      rewrite lookup_app_r by lia. now rewrite Nat.sub_diag.
    + cbn [Conversation.with_model Conversation.fresh Conversation.model
             Conversation.history Conversation.id Conversation.context
             Conversation.language Conversation.assistantName
             Conversation.maxAge].
      repeat split. exact Hk.
  - intros other Hother.
    rewrite list_lookup_alter_ne by lia. now rewrite lookup_app_l.
Qed.

Lemma create_then_change_model_witness :
  fst (fst (GetOrCreateConversation 3600 0 "a" configA emptyWorld)) = Ok 0%nat
  /\ fst (ChangeConversationModel 60 "a" "gpt-4"
            (snd (GetOrCreateConversation 3600 0 "a" configA emptyWorld))) = None
  /\ (exists created,
        objects (snd (ChangeConversationModel 60 "a" "gpt-4"
                        (snd (GetOrCreateConversation 3600 0 "a" configA emptyWorld))))
          !! 0%nat = Some created
        /\ Conversation.model created = "gpt-4"
        /\ Conversation.history created = []
        /\ Conversation.id created = "a"
        /\ Conversation.context created = "A").
Proof.
  destruct (create_then_change_model 3600 0 60 "a" "gpt-4" configA emptyWorld)
    as (Hres & Herr & Hobj & _).
  - vm_compute. lia.
  - left. reflexivity.
  - vm_compute. reflexivity.
  - vm_compute. discriminate.
  - split; [exact Hres|]. split; [exact Herr|].
    destruct Hobj as (created & Hc & Hm & Hh & Hi & Hx & _).
    exists created. repeat split; assumption.
Defined.

(** [ResetConversation] reports no error, forgets the identifier at once
    whatever its age, and touches neither another identifier nor any
    conversation object; changing the model of the forgotten identifier
    then fails with the not-found error. *)
Theorem ResetConversation_forgets (id : string) (w : world) :
  let r := ResetConversation id w in
  fst r = None
  /\ (forall t, liveConversation t id (snd r) = None)
  /\ (forall t k, k <> id -> liveConversation t k (snd r) = liveConversation t k w)
  /\ objects (snd r) = objects w
  /\ (forall now model,
        fst (ChangeConversationModel now id model (snd r)) = Some (notFound id)).
Proof.
  intros r. subst r.
  assert (Hgone : forall t, liveConversation t id (snd (ResetConversation id w)) = None).
  { intros t. unfold liveConversation, LRU.Peek. simpl.
    now rewrite find_remove_eq. }
  split; [reflexivity|]. split; [exact Hgone|]. split; [|split].
  - intros t k Hk. unfold liveConversation, LRU.Peek. simpl.
    now rewrite find_remove_ne by congruence.
  - reflexivity.
  - intros now model. apply ChangeConversationModel_error, Hgone.
Qed.

(** [ResetConversations] reports no error and forgets every identifier;
    the conversation objects and the capacity stay, and changing the
    model of any identifier then fails with the not-found error. *)
Theorem ResetConversations_forgets_all (w : world) :
  let r := ResetConversations w in
  fst r = None
  /\ (forall t k, liveConversation t k (snd r) = None)
  /\ objects (snd r) = objects w
  /\ LRU.capacity (conversationsCache (self (snd r)))
     = LRU.capacity (conversationsCache (self w))
  /\ (forall now id model,
        fst (ChangeConversationModel now id model (snd r)) = Some (notFound id)).
Proof.
  intros r. subst r.
  split; [reflexivity|]. split; [reflexivity|]. split; [reflexivity|].
  split; [reflexivity|].
  intros now id model. now apply ChangeConversationModel_error.
Qed.

(** After a reset of [id], the next call for [id] does not find the old
    conversation: it creates a new one, with an empty history, in a new
    object, and every older object stays as it was. *)
Theorem reset_then_create_is_fresh
    (DefaultConversationMaxAge now : Z) (id : string)
    (ccfg : ConversationConfig.t) (w : world) :
  ConversationConfig.ID ccfg = "" \/ ConversationConfig.ID ccfg = id ->
  let r := GetOrCreateConversation DefaultConversationMaxAge now id ccfg
             (snd (ResetConversation id w)) in
  fst (fst r) = Ok (length (objects w))
  /\ objects w !! length (objects w) = None
  /\ (exists created,
        objects (snd r) !! length (objects w) = Some created
        /\ Conversation.history created = [])
  /\ (forall other, (other < length (objects w))%nat ->
                    objects (snd r) !! other = objects w !! other).
Proof.
  intros Hkey r.
  set (w1 := snd (ResetConversation id w)).
  assert (Hk : ConversationConfig.ID
                 (mergeDefaults DefaultConversationMaxAge (self w1) id ccfg) = id).
  { rewrite merged_ID.
    destruct (decide (ConversationConfig.ID ccfg = "")); [reflexivity|].
    now destruct Hkey. }
  assert (Hl : liveConversation now
                 (ConversationConfig.ID
                    (mergeDefaults DefaultConversationMaxAge (self w1) id ccfg)) w1
               = None).
  { rewrite Hk. subst w1. unfold liveConversation, LRU.Peek. simpl.
    now rewrite find_remove_eq. }
  subst r. fold w1. rewrite (getOrCreate_miss _ _ _ _ _ Hl).
  cbn [fst snd objects]. subst w1. cbn [ResetConversation snd objects].
  split; [reflexivity|]. split; [now apply lookup_ge_None_2|]. split.
  - eexists. split.
    + rewrite lookup_app_r by lia. rewrite Nat.sub_diag. reflexivity.
    + reflexivity.
  - intros other Hother. now rewrite lookup_app_l.
Qed.

Lemma reset_then_create_is_fresh_witness :
  fst (fst (GetOrCreateConversation 3600 1 "a" configA
              (snd (ResetConversation "a" worldA)))) = Ok 1%nat
  /\ objects worldA !! 1%nat = None
  /\ (exists created,
        objects (snd (GetOrCreateConversation 3600 1 "a" configA
                        (snd (ResetConversation "a" worldA)))) !! 1%nat
        = Some created
        /\ Conversation.history created = [])
  /\ (forall other, (other < 1)%nat ->
        objects (snd (GetOrCreateConversation 3600 1 "a" configA
                        (snd (ResetConversation "a" worldA)))) !! other
        = objects worldA !! other).
Proof.
  apply (reset_then_create_is_fresh 3600 1 "a" configA worldA).
  left. reflexivity.
Defined.

(** Once its age has run out, a conversation created under its own key is
    gone: changing its model fails with the not-found error, and the next
    call for the identifier creates another conversation. *)
Theorem expired_conversation_is_replaced
    (DefaultConversationMaxAge now later : Z) (id model : string)
    (ccfg : ConversationConfig.t) (w : world) :
  ConversationConfig.ID ccfg = "" \/ ConversationConfig.ID ccfg = id ->
  liveConversation now id w = None ->
  now + ConversationConfig.MaxAge
          (mergeDefaults DefaultConversationMaxAge (self w) id ccfg) < later ->
  let r1 := GetOrCreateConversation DefaultConversationMaxAge now id ccfg w in
  fst (fst r1) = Ok (length (objects w))
  /\ fst (ChangeConversationModel later id model (snd r1)) = Some (notFound id)
  /\ fst (fst (GetOrCreateConversation DefaultConversationMaxAge later id ccfg (snd r1)))
     = Ok (S (length (objects w))).
Proof.
  intros Hkey Hlive Hlater r1.
  assert (Hkk : forall c, ConversationConfig.ID
                            (mergeDefaults DefaultConversationMaxAge c id ccfg) = id).
  { intros c. rewrite merged_ID.
    destruct (decide (ConversationConfig.ID ccfg = "")); [reflexivity|].
    now destruct Hkey. }
  pose proof Hlive as Hlive'. rewrite <- (Hkk (self w)) in Hlive'.
  subst r1. rewrite (getOrCreate_miss _ _ _ _ _ Hlive'). cbn [fst snd].
  set (m := mergeDefaults DefaultConversationMaxAge (self w) id ccfg) in *.
  match goal with
  | |- context [ChangeConversationModel later id model ?w1] => set (w1' := w1)
  end.
  assert (Hgone : liveConversation later id w1' = None).
  { unfold liveConversation. subst w1'. cbn [self conversationsCache with_cache].
    now rewrite Peek_Set_expired. }
  split; [reflexivity|]. split.
  - now apply ChangeConversationModel_error.
  - rewrite getOrCreate_miss.
    + cbn [fst]. subst w1'. cbn [objects]. rewrite length_app. simpl.
      f_equal. lia.
    + now rewrite Hkk.
Qed.

Lemma expired_conversation_is_replaced_witness :
  fst (fst (GetOrCreateConversation 3600 0 "a" configA emptyWorld)) = Ok 0%nat
  /\ fst (ChangeConversationModel 61 "a" "gpt-4"
            (snd (GetOrCreateConversation 3600 0 "a" configA emptyWorld)))
     = Some (notFound "a")
  /\ fst (fst (GetOrCreateConversation 3600 61 "a" configA
                 (snd (GetOrCreateConversation 3600 0 "a" configA emptyWorld))))
     = Ok 1%nat.
Proof.
  apply (expired_conversation_is_replaced 3600 0 61 "a" "gpt-4" configA emptyWorld).
  - left. reflexivity.
  - vm_compute. reflexivity.
  - vm_compute. reflexivity.
Defined.

(** ** Construction *)

(** [New] fails exactly when the constructor of the API handle fails, with
    that error, and hands it the key, server and proxy as configured.
    Otherwise the client keeps every setting that was given, replaces a
    zero response limit, a zero number of conversations and an empty
    assistant name by their defaults, and starts without any
    conversation: changing the model of any identifier fails. *)
Theorem New_result
    (DefaultMaxResponseTokens DefaultMaxConversations : Z)
    (openai_New : string -> string -> string -> result OpenAI.Client)
    (cfg0 : Config.t) :
  match openai_New (Config.APIKey cfg0) (Config.APIServer cfg0) (Config.Proxy cfg0) with
  | Err e =>
      New DefaultMaxResponseTokens DefaultMaxConversations openai_New cfg0 = Err e
  | Ok api =>
      exists c,
        New DefaultMaxResponseTokens DefaultMaxConversations openai_New cfg0 = Ok c
        /\ core c = api
        /\ Config.MaxResponseTokens (cfg c)
           = (if decide (Config.MaxResponseTokens cfg0 = 0)
              then DefaultMaxResponseTokens else Config.MaxResponseTokens cfg0)
        /\ Config.MaxConversations (cfg c)
           = (if decide (Config.MaxConversations cfg0 = 0)
              then DefaultMaxConversations else Config.MaxConversations cfg0)
        /\ Config.ChatGPTName (cfg c)
           = (if decide (Config.ChatGPTName cfg0 = "")
              then "ChatGPT" else Config.ChatGPTName cfg0)
        /\ Config.ChatGPTName (cfg c) <> ""
        /\ Config.APIKey (cfg c) = Config.APIKey cfg0
        /\ Config.APIServer (cfg c) = Config.APIServer cfg0
        /\ Config.Proxy (cfg c) = Config.Proxy cfg0
        /\ Config.ConversationMaxAge (cfg c) = Config.ConversationMaxAge cfg0
        /\ Config.ConversationContext (cfg c) = Config.ConversationContext cfg0
        /\ Config.ConversationLanguage (cfg c) = Config.ConversationLanguage cfg0
        /\ (forall now id model,
              fst (ChangeConversationModel now id model {| self := c; objects := [] |})
              = Some (notFound id))
  end.
Proof.
  destruct cfg0 as [key server mrt mc age ctx lang name proxy].
  unfold New.
  cbn [Config.APIKey Config.APIServer Config.MaxResponseTokens
         Config.MaxConversations Config.ConversationMaxAge
         Config.ConversationContext Config.ConversationLanguage
         Config.ChatGPTName Config.Proxy].
  destruct (decide (mrt = 0)) as [Hm|Hm];
    cbn [Config.APIKey Config.APIServer Config.MaxResponseTokens
           Config.MaxConversations Config.ConversationMaxAge
           Config.ConversationContext Config.ConversationLanguage
           Config.ChatGPTName Config.Proxy];
    destruct (decide (mc = 0)) as [Hc|Hc];
    cbn [Config.APIKey Config.APIServer Config.MaxResponseTokens
           Config.MaxConversations Config.ConversationMaxAge
           Config.ConversationContext Config.ConversationLanguage
           Config.ChatGPTName Config.Proxy];
    destruct (decide (name = "")) as [Hn|Hn];
    cbn [Config.APIKey Config.APIServer Config.MaxResponseTokens
           Config.MaxConversations Config.ConversationMaxAge
           Config.ConversationContext Config.ConversationLanguage
           Config.ChatGPTName Config.Proxy];
    destruct (openai_New key server proxy) as [api|err]; try reflexivity;
    eexists; (split; [reflexivity|]); cbn [core cfg];
    cbn [Config.APIKey Config.APIServer Config.MaxResponseTokens
           Config.MaxConversations Config.ConversationMaxAge
           Config.ConversationContext Config.ConversationLanguage
           Config.ChatGPTName Config.Proxy];
    repeat (split; [first [reflexivity | discriminate | assumption]|]);
    intros now id model; now apply ChangeConversationModel_error.
Qed.

(** ** Invariants of the store *)

Section Invariants.

Variable DefaultConversationMaxAge : Z.

Lemma getOrCreate_bounded (now : Z) (id : string) (ccfg : ConversationConfig.t)
    (w : world) :
  bounded w ->
  bounded (snd (GetOrCreateConversation DefaultConversationMaxAge now id ccfg w)).
Proof.
  intros Hb.
  destruct (liveConversation now
              (ConversationConfig.ID
                 (mergeDefaults DefaultConversationMaxAge (self w) id ccfg)) w)
    as [conv|] eqn:Hl.
  - rewrite (getOrCreate_hit _ _ _ _ _ _ Hl). unfold bounded. simpl.
    now apply Get_capacity_items.
  - rewrite (getOrCreate_miss _ _ _ _ _ Hl). unfold bounded. simpl.
    rewrite length_take. lia.
Qed.

Lemma getOrCreate_frame (now : Z) (id : string) (ccfg : ConversationConfig.t)
    (w : world) :
  let w' := snd (GetOrCreateConversation DefaultConversationMaxAge now id ccfg w) in
  (length (objects w) <= length (objects w'))%nat
  /\ LRU.capacity (conversationsCache (self w'))
     = LRU.capacity (conversationsCache (self w))
  /\ cfg (self w') = cfg (self w).
Proof.
  intros w'. subst w'.
  destruct (liveConversation now
              (ConversationConfig.ID
                 (mergeDefaults DefaultConversationMaxAge (self w) id ccfg)) w)
    as [conv|] eqn:Hl.
  - rewrite (getOrCreate_hit _ _ _ _ _ _ Hl). simpl.
    rewrite Get_capacity. repeat split; lia.
  - rewrite (getOrCreate_miss _ _ _ _ _ Hl). simpl.
    rewrite Get_capacity, length_app. repeat split; lia.
Qed.

Lemma ChangeConversationModel_frame (now : Z) (id model : string) (w : world) :
  let w' := snd (ChangeConversationModel now id model w) in
  bounded w ->
  bounded w'
  /\ length (objects w') = length (objects w)
  /\ LRU.capacity (conversationsCache (self w'))
     = LRU.capacity (conversationsCache (self w))
  /\ cfg (self w') = cfg (self w).
Proof.
  intros w' Hb. subst w'. unfold ChangeConversationModel.
  destruct (liveConversation now id w) as [conv|] eqn:Hl.
  - rewrite (GetConversation_hit _ _ _ _ Hl). unfold bounded. simpl.
    rewrite length_alter, Get_capacity.
    split; [|repeat split].
    pose proof (Get_capacity_items now id _ Hb) as H.
    now rewrite Get_capacity in H.
  - rewrite (GetConversation_miss _ _ _ Hl). unfold bounded. simpl.
    rewrite Get_capacity.
    split; [|repeat split].
    pose proof (Get_capacity_items now id _ Hb) as H.
    now rewrite Get_capacity in H.
Qed.

Lemma perform_keeps (op : operation) (w : world) :
  wf w -> bounded w ->
  let w' := perform DefaultConversationMaxAge op w in
  wf w' /\ bounded w'
  /\ (length (objects w) <= length (objects w'))%nat
  /\ LRU.capacity (conversationsCache (self w'))
     = LRU.capacity (conversationsCache (self w))
  /\ cfg (self w') = cfg (self w).
Proof.
  intros Hwf Hb w'. subst w'. destruct op as [now id ccfg| |id|now id model]; simpl perform.
  - split; [now apply getOrCreate_wf|]. split; [now apply getOrCreate_bounded|].
    apply getOrCreate_frame.
  - split; [apply ResetConversations_wf|]. unfold bounded. simpl.
    repeat split; lia.
  - split; [now apply ResetConversation_wf|]. unfold bounded in *. simpl.
    pose proof (length_filter (fun it => LRU.key it <> id)
                  (LRU.items (conversationsCache (self w)))) as Hle.
    unfold LRU.remove. repeat split; lia.
  - split; [now apply ChangeConversationModel_wf|].
    destruct (ChangeConversationModel_frame now id model w Hb) as (H1 & H2 & H3 & H4).
    repeat split; try assumption. lia.
Qed.

End Invariants.

(** Whatever calls are made on a well-formed store within its capacity,
    the store stays so: keys stay unique, the cache never holds more
    entries than its capacity, every live entry points to an existing
    conversation object, no object is ever removed, and the capacity and
    the client's configuration never change. *)
Theorem store_invariants
    (DefaultConversationMaxAge : Z) (ops : list operation) (w : world) :
  wf w -> bounded w ->
  let w' := performAll DefaultConversationMaxAge ops w in
  wf w' /\ bounded w'
  /\ (forall now k conv,
        liveConversation now k w' = Some conv ->
        exists object, objects w' !! conv = Some object)
  /\ (length (objects w) <= length (objects w'))%nat
  /\ LRU.capacity (conversationsCache (self w'))
     = LRU.capacity (conversationsCache (self w))
  /\ cfg (self w') = cfg (self w).
Proof.
  intros Hwf Hb w'. subst w'.
  assert (Hmain : wf (performAll DefaultConversationMaxAge ops w)
                  /\ bounded (performAll DefaultConversationMaxAge ops w)
                  /\ (length (objects w)
                      <= length (objects (performAll DefaultConversationMaxAge ops w)))%nat
                  /\ LRU.capacity (conversationsCache
                                     (self (performAll DefaultConversationMaxAge ops w)))
                     = LRU.capacity (conversationsCache (self w))
                  /\ cfg (self (performAll DefaultConversationMaxAge ops w))
                     = cfg (self w)).
  { revert w Hwf Hb. unfold performAll.
    induction ops as [|op ops IH]; intros w Hwf Hb; simpl.
    - split; [exact Hwf|]. split; [exact Hb|]. split; [lia|]. split; reflexivity.
    - destruct (perform_keeps DefaultConversationMaxAge op w Hwf Hb)
        as (Hwf1 & Hb1 & Hlen1 & Hcap1 & Hcfg1).
      destruct (IH _ Hwf1 Hb1) as (Hwf2 & Hb2 & Hlen2 & Hcap2 & Hcfg2).
      split; [exact Hwf2|]. split; [exact Hb2|].
      split; [lia|]. split; congruence. }
  destruct Hmain as (Hwf' & Hb' & Hlen & Hcap & Hcfg).
  split; [exact Hwf'|]. split; [exact Hb'|]. split; [|split; [exact Hlen|]].
  - intros now k conv Hl. apply lookup_lt_is_Some_2.
    exact (wf_live_valid _ _ _ _ Hwf' Hl).
  - split; assumption.
Qed.

Lemma store_invariants_witness :
  let w' := performAll 3600
              [OpGetOrCreate 0 "a" configA; OpChangeModel 1 "a" "gpt-4";
               OpGetOrCreate 2 "a" configB; OpReset "a"]
              emptyWorld in
  wf w' /\ bounded w'
  /\ (forall now k conv,
        liveConversation now k w' = Some conv ->
        exists object, objects w' !! conv = Some object)
  /\ (length (objects emptyWorld) <= length (objects w'))%nat
  /\ LRU.capacity (conversationsCache (self w'))
     = LRU.capacity (conversationsCache (self emptyWorld))
  /\ cfg (self w') = cfg (self emptyWorld).
Proof.
  apply (store_invariants 3600
           [OpGetOrCreate 0 "a" configA; OpChangeModel 1 "a" "gpt-4";
            OpGetOrCreate 2 "a" configB; OpReset "a"]
           emptyWorld).
  - exact emptyWorld_wf.
  - unfold bounded. vm_compute. lia.
Defined.

(** A client as [New] builds it is a well-formed store within its
    capacity. *)
Lemma New_bounded
    (DefaultMaxResponseTokens DefaultMaxConversations : Z)
    (openai_New : string -> string -> string -> result OpenAI.Client)
    (cfg0 : Config.t) (c : client) :
  New DefaultMaxResponseTokens DefaultMaxConversations openai_New cfg0 = Ok c ->
  bounded {| self := c; objects := [] |}.
Proof.
  unfold New. destruct (openai_New _ _ _) as [api|e]; [|discriminate].
  intros [= <-]. unfold bounded. simpl. lia.
Qed.
